(** * crypto_pump_bot.py: the reconnecting ticker listener and its shutdown

    A shallow embedding of [src/crypto_pump_bot.py].  The script has three
    parts that carry behaviour:

    - the module-level environment validation and configuration constants;
    - [RobustCryptoBot.websocket_listener], a coroutine with two nested
      loops, a retry counter and an exponential backoff;
    - [RobustCryptoBot.shutdown], [RobustCryptoBot.start] and the
      [__main__] block.

    A coroutine is embedded as a resumable state machine: a state records
    the [await] the coroutine is suspended at, and [resume] feeds it the
    result of that [await] (a value or a raised exception) and runs the
    code up to the next [await], returning the actions performed on the way.
    Python integers are [Z]; strings are [string]; [os.environ] is a
    [gmap string string]. *)

From Stdlib Require Import ZArith Lia QArith Sorted.
From stdpp Require Import base gmap strings list.

Local Open Scope string_scope.
Local Open Scope Z_scope.
Local Open Scope list_scope.

(** ** Exceptions *)

(** The exception classes the script raises, catches or can be handed by
    the libraries it awaits.  [OtherException] stands for any further
    subclass of [Exception] (a handshake error of websockets, an invalid
    token of the Telegram library, ...). *)
Inductive exn :=
| TimeoutError                      (* asyncio.TimeoutError *)
| ConnectionClosed                  (* websockets.ConnectionClosed *)
| AttributeError (name : string)
| JSONDecodeError
| TypeError
| ValueError (msg : string)
| RuntimeError (msg : string)
| OSError
| OtherException (cls : string)
| CancelledError                    (* derives from BaseException *)
| KeyboardInterrupt.                (* derives from BaseException *)

(** [except Exception] catches everything but the two classes that derive
    from [BaseException] directly. *)
Definition is_Exception (e : exn) : bool :=
  match e with
  | CancelledError | KeyboardInterrupt => false
  | _ => true
  end.

(** [except (asyncio.TimeoutError, websockets.ConnectionClosed)], the
    handler of the inner [try] (line 107). *)
Definition inner_handler_catches (e : exn) : bool :=
  match e with
  | TimeoutError | ConnectionClosed => true
  | _ => false
  end.

(** ** The class and its attributes *)

(** The methods [class RobustCryptoBot] defines, in source order. *)
Definition class_methods : list string :=
  [ "__init__"; "_init_exchange"; "_init_telegram"; "start";
    "system_monitor"; "websocket_listener"; "shutdown" ].

(** The instance attributes [__init__] assigns. *)
Definition instance_attributes : list string :=
  [ "exchange"; "symbol_data"; "alert_cooldown"; "app"; "ws_uri";
    "retries"; "max_retries" ].

(** [self.<name>]: the instance dictionary first, then the class. *)
Definition has_attribute (name : string) : bool :=
  bool_decide (name ∈ instance_attributes ++ class_methods).

(** The part of the instance state the listener reads and writes.
    [symbol_data] and [alert_cooldown] are empty dictionaries no method
    touches; [exchange] is an opaque client object. *)
Record bot := Bot {
  ws_uri : string;
  retries : Z;
  max_retries : Z
}.

(** [__init__], lines 55-57. *)
Definition init_bot : bot :=
  {| ws_uri := "wss://stream.binance.com:9443/ws/!ticker@arr";
     retries := 0;
     max_retries := 10 |}.

Definition set_retries (b : bot) (r : Z) : bot :=
  {| ws_uri := ws_uri b; retries := r; max_retries := max_retries b |}.

(** ** The listener coroutine *)

(** The result of an [await], as the event loop hands it back. *)
Inductive reply :=
| Value (data : string)     (* returned; [data] is the frame of a recv *)
| Raise (e : exn).

Inductive log_msg :=
| LogConnected                                  (* line 101 *)
| LogTimeoutReconnecting                        (* line 108 *)
| LogConnectionFailed (retry : Z) (e : exn)     (* line 113 *)
| LogMaxRetries.                                (* line 116 *)

(** What the coroutine does to the outside world. *)
Inductive action :=
| Log (m : log_msg)
| Connect (uri : string) (ping_interval : Z)    (* websockets.connect *)
| Close                                         (* leaving [async with] *)
| Recv (timeout : Z)                            (* wait_for(ws.recv()) *)
| Sleep (secs : Z)                              (* asyncio.sleep *)
| Shutdown.                                     (* self.shutdown() *)

(** The [await] the coroutine is suspended at, or how it ended. *)
Inductive point :=
| AtConnect
| AtRecv
| AtSleep
| AtShutdown
| Returned
| Failed (e : exn).

Record coroutine := Coroutine { self : bot; at_point : point }.

Section Listener.

(** [json.loads] belongs to the standard library of Python, not to the
    script: [None] is a [JSONDecodeError]. *)
Context {json : Type}.
Variable json_loads : string -> option json.

(** [while self.retries < self.max_retries:] (line 98) up to the next
    [await]: either the [connect] of line 100 or, once the guard fails,
    the [shutdown] of line 117. *)
Definition loop_head (b : bot) : coroutine * list action :=
  if retries b <? max_retries b
  then (Coroutine b AtConnect, [Connect (ws_uri b) 30])
  else (Coroutine b AtShutdown, [Log LogMaxRetries; Shutdown]).

(** [2 ** self.retries], then [min(_, 300)] (line 112).  The counter is
    at least 1 there, so the power is an integer. *)
Definition backoff (r : Z) : Z := Z.min (2 ^ r) 300.

(** An exception [e] reaches the outer [try] (lines 110-114).
    [except Exception] takes it, bumps the counter and sleeps; anything
    else leaves the coroutine. *)
Definition outer_handler (b : bot) (e : exn) : coroutine * list action :=
  if is_Exception e then
    let b' := set_retries b (retries b + 1) in
    let wait := backoff (retries b') in
    (Coroutine b' AtSleep, [Log (LogConnectionFailed (retries b') e); Sleep wait])
  else (Coroutine b (Failed e), []).

(** [self.process_data(json.loads(data))] (line 106) before the [await]:
    Python evaluates the callee first, then the argument, then calls.
    The methods the class does define take [self] only, so a call with
    one more argument is a [TypeError]. *)
Definition call_process_data (data : string) : option exn :=
  if has_attribute "process_data" then
    match json_loads data with
    | None => Some JSONDecodeError
    | Some _ => Some TypeError
    end
  else Some (AttributeError "process_data").

(** An exception inside the inner [try] (lines 104-109): the inner
    handler logs and breaks out of the receive loop, which leaves the
    [async with] normally and comes back to the loop head; everything
    else unwinds through the [async with] to the outer handler. *)
Definition inner_exception (b : bot) (e : exn) : coroutine * list action :=
  if inner_handler_catches e then
    let '(c, out) := loop_head b in
    (c, Log LogTimeoutReconnecting :: Close :: out)
  else
    let '(c, out) := outer_handler b e in
    (c, Close :: out).

(** Resume the coroutine with the result of the [await] it waits on. *)
Definition resume (c : coroutine) (r : reply) : coroutine * list action :=
  let b := self c in
  match at_point c with
  | AtConnect =>
      match r with
      | Value _ =>
          let b' := set_retries b 0 in                     (* line 102 *)
          (Coroutine b' AtRecv, [Log LogConnected; Recv 45])
      | Raise e => outer_handler b e
      end
  | AtRecv =>
      match r with
      | Value data =>
          match call_process_data data with
          | Some e => inner_exception b e
          | None => (Coroutine b AtRecv, [Recv 45])
          end
      | Raise e => inner_exception b e
      end
  | AtSleep =>
      match r with
      | Value _ => loop_head b
      | Raise e => (Coroutine b (Failed e), [])
      end
  | AtShutdown =>
      match r with
      | Value _ => (Coroutine b Returned, [])
      | Raise e => (Coroutine b (Failed e), [])
      end
  | Returned | Failed _ => (c, [])
  end.

(** Calling [websocket_listener()] and scheduling it runs the body to
    its first [await]. *)
Definition websocket_listener (b : bot) : coroutine * list action :=
  loop_head b.

(** Feed a coroutine the results of its successive [await]s. *)
Fixpoint run (c : coroutine) (rs : list reply) : coroutine * list action :=
  match rs with
  | [] => (c, [])
  | r :: rs' =>
      let '(c1, out1) := resume c r in
      let '(c2, out2) := run c1 rs' in
      (c2, out1 ++ out2)
  end.

(** The whole listener on a script of replies. *)
Definition listen (b : bot) (rs : list reply) : coroutine * list action :=
  let '(c0, out0) := websocket_listener b in
  let '(c1, out1) := run c0 rs in
  (c1, out0 ++ out1).

End Listener.

(** ** Reading a trace *)

Definition sleeps (t : list action) : list Z :=
  omap (fun a => match a with Sleep w => Some w | _ => None end) t.

Definition is_connect (a : action) : bool :=
  match a with Connect _ _ => true | _ => false end.

Definition is_shutdown (a : action) : bool :=
  match a with Shutdown => true | _ => false end.

Definition count (p : action -> bool) (t : list action) : nat :=
  length (List.filter p t).

(** ** Shutdown (lines 119-127) *)

(** How a task ends. *)
Inductive finish :=
| FinishedOk
| FinishedCancelled
| FinishedWith (e : exn).

(** A task of the event loop that is not done yet, with its reaction to
    [cancel()]: [Some (d, f)] ends it [d] scheduler ticks later as [f];
    [None] is a task that swallows the cancellation and keeps running.
    [gathers] lists the tasks of the gather the task is suspended on,
    if it is suspended on one: cancelling the task cancels that gather,
    which cancels each of them. *)
Record task := Task {
  task_id : nat;
  after_cancel : option (nat * finish);
  gathers : list nat
}.

Inductive shutdown_log :=
| LogInitiating                                 (* line 121 *)
| LogComplete.                                  (* line 127 *)

Inductive shutdown_action :=
| ShutdownLog (m : shutdown_log)
| Cancel (id : nat)                             (* task.cancel() *)
| Gather (ids : list nat)                       (* asyncio.gather over tasks *)
| AppStop                                       (* self.app.stop() *)
| AppShutdown.                                  (* self.app.shutdown() *)

(** When the cancelled tasks are all done: after the slowest of them,
    with what each ended with.  [None]: some task never ends. *)
Fixpoint ends (ts : list task) : option (nat * list finish) :=
  match ts with
  | [] => Some (0%nat, [])
  | t :: ts' =>
      match after_cancel t, ends ts' with
      | Some (d, f), Some (d', fs) => Some (Nat.max d d', f :: fs)
      | _, _ => None
      end
  end.

(** A task that ends with KeyboardInterrupt does not keep the exception
    to itself: the event loop hands it on to whoever runs the loop, and
    the loop stops. *)
Definition stops_loop (f : finish) : bool :=
  match f with
  | FinishedWith KeyboardInterrupt => true
  | _ => false
  end.

(** How an [await] on the cancelled tasks ends. *)
Inductive awaited :=
| AllDone (elapsed : nat) (results : list finish)   (* returns the results *)
| Stopped             (* the loop is stopped; CancelledError at the await *)
| Cancelled           (* the await raises CancelledError *)
| Pending.            (* the await never completes *)

(** [await asyncio.gather] over [tasks] with [return_exceptions=True].
    It is ready once every task is done, after the slowest of them, and
    never when one of them never ends.  It returns what the tasks ended
    with, Exceptions and cancellations included, unless one of them
    stopped the loop or the awaiting task was [cancelled] itself: then
    it raises CancelledError into the awaiting task. *)
Definition gather (cancelled : bool) (ts : list task) : awaited :=
  match ends ts with
  | None => Pending
  | Some (d, fs) =>
      if existsb stops_loop fs then Stopped
      else if cancelled then Cancelled
      else AllDone d fs
  end.

Section Program.

(** The Telegram application object: its [stop] and [shutdown]
    coroutines come from the library, each returning the new state of
    the application or raising. *)
Context {app : Type}.
Variable app_stop : app -> exn + app.
Variable app_shutdown : app -> exn + app.

Inductive shutdown_result :=
| Complete (a : app) (elapsed : nat)          (* reached line 127 *)
| Hung                                        (* suspended forever at line 124 *)
| Propagates (e : exn) (a : app)              (* [shutdown] raises [e] *)
| Interrupted (e : exn) (a : app).            (* a task ended with [e], which
                                                 stops the loop: CancelledError
                                                 is raised at line 124 and [e]
                                                 leaves [asyncio.run] *)

(** [tasks = [t for t in asyncio.all_tasks() if t is not current_task()]],
    tasks being told apart by their identity. *)
Definition other_tasks (all_tasks : list task) (current : nat) : list task :=
  List.filter (fun t => negb (task_id t =? current)%nat) all_tasks.

(** The cancellations of line 123 reach the task that issues them when
    one of the cancelled tasks is suspended on a gather that holds it. *)
Definition cancels_itself (all_tasks : list task) (current : nat) : bool :=
  existsb (fun t => bool_decide (current ∈ gathers t))
    (other_tasks all_tasks current).

(** [shutdown], lines 119-127: the log line, the cancellations, the await
    on all the cancelled tasks, then the two calls on the application.
    [all_tasks] stands for [asyncio.all_tasks()], the tasks of the loop
    that are not done.  The await raises CancelledError into [shutdown],
    and nothing of lines 125-127 runs, when the cancellations reached the
    running task or when a task stopped the loop. *)
Definition shutdown (all_tasks : list task) (current : nat) (a : app)
  : shutdown_result * list shutdown_action :=
  let tasks := other_tasks all_tasks current in
  let ids := map task_id tasks in
  let pre := ShutdownLog LogInitiating :: map Cancel ids ++ [Gather ids] in
  match gather (cancels_itself all_tasks current) tasks with
  | Pending => (Hung, pre)
  | Cancelled => (Propagates CancelledError a, pre)
  | Stopped => (Interrupted KeyboardInterrupt a, pre)
  | AllDone elapsed _ =>
      match app_stop a with
      | inl e => (Propagates e a, pre ++ [AppStop])
      | inr a1 =>
          match app_shutdown a1 with
          | inl e => (Propagates e a1, pre ++ [AppStop; AppShutdown])
          | inr a2 =>
              (Complete a2 elapsed,
               pre ++ [AppStop; AppShutdown; ShutdownLog LogComplete])
          end
      end
  end.

(** ** Module initialisation, [start] and [__main__] *)

(** [not os.getenv(var)]: unset and empty are both falsy. *)
Definition truthy (v : option string) : bool :=
  match v with
  | None => false
  | Some s => negb (String.eqb s "")
  end.

Definition REQUIRED_ENV : list string := ["TELEGRAM_TOKEN"; "CHAT_ID"].

(** Lines 34-36. *)
Fixpoint validate (env : gmap string string) (vars : list string) : option exn :=
  match vars with
  | [] => None
  | var :: rest =>
      if truthy (env !! var) then validate env rest
      else Some (ValueError
                   (String.append "Missing required environment variable: " var))
  end.

(** The module globals of lines 38-47. *)
Record globals := Globals {
  TELEGRAM_TOKEN : option string;
  CHAT_ID : option string;
  BOT_NAME : string;
  ALERT_THRESHOLDS : gmap string Q
}.

Definition module_init (env : gmap string string) : exn + globals :=
  match validate env REQUIRED_ENV with
  | Some e => inl e
  | None =>
      inr {| TELEGRAM_TOKEN := env !! "TELEGRAM_TOKEN";
             CHAT_ID := env !! "CHAT_ID";
             BOT_NAME := default "GitHub Codespaces Bot" (env !! "BOT_NAME");
             ALERT_THRESHOLDS :=
               {[ "5m" := 5%Q; "15m" := 10%Q; "1h" := 50%Q ]} |}
  end.

(** What the run depends on beyond the script itself. *)
Record world := World {
  environ : gmap string string;         (* os.environ after load_dotenv() *)
  exchange_raises : option exn;         (* ccxt.binance({...}) *)
  builder_raises : option exn;          (* ApplicationBuilder()...build() *)
  built_app : app;                      (* the application it builds *)
  gathered : option exn;                (* what the gather of line 79 raises:
                                           the listener, the Telegram
                                           coroutines and system_monitor;
                                           [None]: it never completes *)
  all_tasks : list task;                (* asyncio.all_tasks() at line 122 *)
  current_task : nat;                   (* asyncio.current_task() there *)
  app_then : app                        (* the application at line 125 *)
}.

(** Lines 59-67. *)
Definition _init_exchange (w : world) : exn + unit :=
  match exchange_raises w with
  | Some e => inl e
  | None => inr tt
  end.

(** Lines 69-73. *)
Definition _init_telegram (g : globals) (w : world) : exn + app :=
  if negb (truthy (TELEGRAM_TOKEN g)) || negb (truthy (CHAT_ID g))
  then inl (ValueError "Telegram credentials missing")
  else match builder_raises w with
       | Some e => inl e
       | None => inr (built_app w)
       end.

(** [RobustCryptoBot()], lines 50-57. *)
Definition construct (g : globals) (w : world) : exn + (bot * app) :=
  match _init_exchange w with
  | inl e => inl e
  | inr _ =>
      match _init_telegram g w with
      | inl e => inl e
      | inr a => inr (init_bot, a)
      end
  end.

Inductive program_event :=
| LogStarting                                 (* line 78 *)
| LogCriticalFailure (e : exn)                (* line 87 *)
| LogFatalInitialization (e : exn)            (* line 139 *)
| InShutdown (a : shutdown_action)
| Traceback (e : exn).                        (* uncaught: interpreter exits *)

(** How a call ends. *)
Inductive ending :=
| Returns
| Raises (e : exn)
| NeverEnds
| Interrupts (e : exn).   (* the loop is stopped and [e] leaves [asyncio.run] *)

(** [start], lines 75-88.  The gather of line 79 cannot return:
    [system_monitor], one of its coroutines, has no exit.  It raises, or
    it never completes. *)
Definition start (w : world) : ending * list program_event :=
  match gathered w with
  | None => (NeverEnds, [LogStarting])
  | Some e =>
      if is_Exception e then
        let '(r, t) := shutdown (all_tasks w) (current_task w) (app_then w) in
        (match r with
         | Complete _ _ => Returns
         | Hung => NeverEnds
         | Propagates e' _ => Raises e'
         | Interrupted e' _ => Interrupts e'
         end,
         LogStarting :: LogCriticalFailure e :: map InShutdown t)
      else (Raises e, [LogStarting])
  end.

(** The status the interpreter exits with on an exception nothing
    catches: 1 after the traceback, but an unhandled KeyboardInterrupt
    ends the process by the interrupt signal, which a shell reports as
    130. *)
Definition uncaught_status (e : exn) : Z :=
  match e with
  | KeyboardInterrupt => 130
  | _ => 1
  end.

(** The exit status of the interpreter: [None] while it never exits. *)
Definition uncaught (e : exn) (t : list program_event)
  : option Z * list program_event :=
  (Some (uncaught_status e), t ++ [Traceback e]).

(** The [except Exception] of line 138. *)
Definition main_handler (e : exn) (t : list program_event)
  : option Z * list program_event :=
  if is_Exception e then (Some 0, t ++ [LogFatalInitialization e])
  else uncaught e t.

(** The script from line 23 to its end, run as [__main__]. *)
Definition main (w : world) : option Z * list program_event :=
  match module_init (environ w) with
  | inl e => uncaught e []
  | inr g =>
      match construct g w with
      | inl e => main_handler e []
      | inr _ =>
          match start w with
          | (Returns, t) => (Some 0, t)
          | (Raises e, t) => main_handler e t
          | (NeverEnds, t) => (None, t)
          | (Interrupts e, t) => main_handler e t
          end
      end
  end.

End Program.

(** ** The lifecycle of python-telegram-bot's [Application]

    [ApplicationBuilder] exists from version 20 of the library on, where
    [Application.stop] raises [RuntimeError] unless the application is
    running, and [Application.shutdown] raises while it is running and
    returns at once when it is not initialised. *)
Module Telegram.

Record application := Application { initialized : bool; running : bool }.

Definition built : application :=
  {| initialized := false; running := false |}.

Definition stop (a : application) : exn + application :=
  if running a
  then inr {| initialized := initialized a; running := false |}
  else inl (RuntimeError "This Application is not running!").

Definition shutdown (a : application) : exn + application :=
  if running a then inl (RuntimeError "This Application is still running!")
  else inr {| initialized := false; running := false |}.

End Telegram.

(** ** Scripts, expected traces and invariants used in the statements *)

(** A run of consecutive failures to establish the connection: each
    [connect] raises, and the sleep that follows runs to its end. *)
Definition failure_streak (es : list exn) : list reply :=
  flat_map (fun e => [Raise e; Value ""]) es.

(** What the listener does over such a streak, the counter being [r] when
    the streak starts: per failure the log line with the new counter, the
    sleep, and the next attempt. *)
Fixpoint streak_trace (uri : string) (r : Z) (es : list exn) : list action :=
  match es with
  | [] => []
  | e :: es' =>
      Log (LogConnectionFailed (r + 1) e) :: Sleep (backoff (r + 1))
        :: Connect uri 30 :: streak_trace uri (r + 1) es'
  end.

(** The waits [backoff (r+1)], ..., [backoff (r+n)]. *)
Fixpoint waits_from (r : Z) (n : nat) : list Z :=
  match n with
  | O => []
  | S n' => backoff (r + 1) :: waits_from (r + 1) n'
  end.

(** A reply that hands the listener a frame on an open connection. *)
Definition delivers_frame (c : coroutine) (r : reply) : bool :=
  match at_point c, r with
  | AtRecv, Value _ => true
  | _, _ => false
  end.

(** The frames a script hands to the listener. *)
Fixpoint frames_received {json : Type} (json_loads : string -> option json)
    (c : coroutine) (rs : list reply) : nat :=
  match rs with
  | [] => O
  | r :: rs' =>
      ((if delivers_frame c r then 1 else 0)
       + frames_received json_loads (resume json_loads c r).1 rs')%nat
  end.

(** The coroutine still runs its loops. *)
Definition in_loop (c : coroutine) : bool :=
  match at_point c with
  | AtConnect | AtRecv | AtSleep => true
  | _ => false
  end.

(** What holds of the listener of a freshly constructed bot at every
    [await]. *)
Definition listener_inv (c : coroutine) : Prop :=
  ws_uri (self c) = ws_uri init_bot /\
  max_retries (self c) = 10 /\
  match at_point c with
  | AtConnect => 0 <= retries (self c) < 10
  | AtRecv => retries (self c) = 0
  | AtSleep => 1 <= retries (self c) <= 10
  | AtShutdown | Returned => retries (self c) = 10
  | Failed _ => 0 <= retries (self c) <= 10
  end.

(** A reply that ends up in the outer handler when the listener waits on
    an open connection: a frame, or an exception the inner handler lets
    through and [except Exception] takes. *)
Definition fails_connection (r : reply) : bool :=
  match r with
  | Value _ => true
  | Raise e => is_Exception e && negb (inner_handler_catches e)
  end.

(** A decoder for the concrete runs below: the empty array is the one
    text it accepts. *)
Definition only_empty_array (s : string) : option (list unit) :=
  if String.eqb s "[]" then Some [] else None.

(** Environments for the concrete runs below. *)
Definition env_required : gmap string string :=
  {[ "TELEGRAM_TOKEN" := "123:abc"; "CHAT_ID" := "42" ]}.

Definition env_with_overrides : gmap string string :=
  <[ "BOT_NAME" := "pump" ]>
  (<[ "MAX_RETRIES" := "3" ]>
  (<[ "BACKOFF_BASE" := "3" ]>
  (<[ "BACKOFF_CAP" := "60" ]>
  (<[ "ALERT_THRESHOLD_5M" := "1.0" ]>
  (<[ "ALERT_COOLDOWN" := "60" ]> env_required))))).


(** A world in which everything is in place and nothing fails: the
    gather of line 79 never completes. *)
Definition world_clean (env : gmap string string) : world :=
  {| environ := env;
     exchange_raises := None;
     builder_raises := None;
     built_app := Telegram.built;
     gathered := None;
     all_tasks := [];
     current_task := O;
     app_then := Telegram.Application true true |}.







(** ** The status monitor (lines 90-94) *)

Inductive monitor_action :=
| LogStatus (retries max_retries : Z)           (* line 93 *)
| MonitorSleep (secs : Z).                      (* line 94 *)

(** The monitor is suspended at its sleep, or has ended on an exception;
    its loop has no exit of its own. *)
Inductive monitor_point :=
| MonitorSleeping
| MonitorFailed (e : exn).

(** One turn of [while True:]: the status line reads the counter and the
    maximum of the bot as they are at that moment, then the coroutine
    sleeps an hour. *)
Definition monitor_turn (b : bot) : monitor_point * list monitor_action :=
  (MonitorSleeping, [LogStatus (retries b) (max_retries b); MonitorSleep 3600]).

(** Calling [system_monitor()] and scheduling it runs the body to its
    first [await]. *)
Definition system_monitor (b : bot) : monitor_point * list monitor_action :=
  monitor_turn b.

(** Resume the monitor with the result of its sleep; [b] is the bot as it
    is when the monitor wakes. *)
Definition resume_monitor (b : bot) (p : monitor_point) (r : reply)
  : monitor_point * list monitor_action :=
  match p with
  | MonitorSleeping =>
      match r with
      | Value _ => monitor_turn b
      | Raise e => (MonitorFailed e, [])
      end
  | MonitorFailed _ => (p, [])
  end.

(** The monitor alone, the bot staying as it is. *)
Fixpoint run_monitor (b : bot) (p : monitor_point) (rs : list reply)
  : monitor_point * list monitor_action :=
  match rs with
  | [] => (p, [])
  | r :: rs' =>
      let '(p1, out1) := resume_monitor b p r in
      let '(p2, out2) := run_monitor b p1 rs' in
      (p2, out1 ++ out2)
  end.

(** ** The listener and the monitor on one event loop

    Both coroutines hold the same bot object: the listener writes its
    counter, the monitor reads it.  The event loop resumes one coroutine at
    a time, and a coroutine runs alone from one [await] to the next. *)

Inductive turn :=
| ListenerTurn (r : reply)
| MonitorTurn (r : reply).

Inductive loop_action :=
| FromListener (a : action)
| FromMonitor (a : monitor_action).

Record loop_state := LoopState {
  the_listener : coroutine;         (* holds the shared bot *)
  the_monitor : monitor_point
}.

Definition loop_step {json : Type} (json_loads : string -> option json)
    (s : loop_state) (u : turn) : loop_state * list loop_action :=
  match u with
  | ListenerTurn r =>
      let '(c, out) := resume json_loads (the_listener s) r in
      (LoopState c (the_monitor s), map FromListener out)
  | MonitorTurn r =>
      let '(p, out) :=
        resume_monitor (self (the_listener s)) (the_monitor s) r in
      (LoopState (the_listener s) p, map FromMonitor out)
  end.

Fixpoint loop_run {json : Type} (json_loads : string -> option json)
    (s : loop_state) (us : list turn) : loop_state * list loop_action :=
  match us with
  | [] => (s, [])
  | u :: us' =>
      let '(s1, out1) := loop_step json_loads s u in
      let '(s2, out2) := loop_run json_loads s1 us' in
      (s2, out1 ++ out2)
  end.

(** The gather of line 79 schedules the listener first and the monitor
    last; each runs to its first [await]. *)
Definition loop_start (b : bot) : loop_state * list loop_action :=
  let '(c, out) := loop_head b in
  let '(p, mout) := system_monitor (self c) in
  (LoopState c p, map FromListener out ++ map FromMonitor mout).

Definition both_coroutines {json : Type} (json_loads : string -> option json)
    (b : bot) (us : list turn) : loop_state * list loop_action :=
  let '(s0, out0) := loop_start b in
  let '(s1, out1) := loop_run json_loads s0 us in
  (s1, out0 ++ out1).

(** The status lines of a trace. *)
Definition statuses (t : list loop_action) : list (Z * Z) :=
  omap (fun a => match a with
                 | FromMonitor (LogStatus r m) => Some (r, m)
                 | _ => None
                 end) t.

(** ** Disciplines a trace of the listener is checked against *)

(** The connection is open while the listener waits for a frame. *)
Definition is_open (c : coroutine) : bool :=
  match at_point c with
  | AtRecv => true
  | _ => false
  end.

(** Reads a trace with the connection [open] or not at its start: a
    connection is opened only while none is open, frames are awaited on an
    open connection only, and sleeping, connecting and shutting down
    happen with the connection closed.  [None]: the trace breaks one of
    these; [Some o]: it keeps them and ends with the connection [o]. *)
Fixpoint connection_discipline (open : bool) (t : list action) : option bool :=
  match t with
  | [] => Some open
  | a :: t' =>
      match a with
      | Log LogConnected =>
          if open then None else connection_discipline true t'
      | Recv _ =>
          if open then connection_discipline true t' else None
      | Close =>
          if open then connection_discipline false t' else None
      | Connect _ _ | Sleep _ | Shutdown =>
          if open then None else connection_discipline false t'
      | Log _ => connection_discipline open t'
      end
  end.

(** Reads a trace with [k] failures counted at its start: a successful
    connect puts the count back to 0, a failure line must carry the count
    plus one, and the sleep that follows must last min(2^(count+1), 300)
    and makes the count go up by one.  [None]: a line or a sleep does not
    fit; [Some k']: all fit and [k'] failures are counted at the end. *)
Fixpoint backoff_discipline (k : Z) (t : list action) : option Z :=
  match t with
  | [] => Some k
  | a :: t' =>
      match a with
      | Log LogConnected => backoff_discipline 0 t'
      | Log (LogConnectionFailed n _) =>
          if n =? k + 1 then backoff_discipline k t' else None
      | Sleep w =>
          if w =? Z.min (2 ^ (k + 1)) 300
          then backoff_discipline (k + 1) t' else None
      | _ => backoff_discipline k t'
      end
  end.

(** ** Further scripts *)

(** Connections that open and then time out or are closed, one after the
    other. *)
Definition idle_cycles (es : list exn) : list reply :=
  flat_map (fun e => [Value ""; Raise e]) es.

(** What the listener does over them. *)
Definition idle_trace (uri : string) (es : list exn) : list action :=
  flat_map (fun _ : exn =>
              [Log LogConnected; Recv 45; Log LogTimeoutReconnecting; Close;
               Connect uri 30]) es.

(** Connections that open and deliver one frame each, the sleep that
    follows running to its end. *)
Definition frame_cycles (ds : list string) : list reply :=
  flat_map (fun d => [Value ""; Value d; Value ""]) ds.

(** What the listener does over one connection that delivers a frame. *)
Definition frame_trace (uri : string) (ds : list string) : list action :=
  flat_map (fun _ : string =>
              [Log LogConnected; Recv 45; Close;
               Log (LogConnectionFailed 1 (AttributeError "process_data"));
               Sleep 2; Connect uri 30]) ds.

(** The task identities [shutdown] cancels, in the order of the trace. *)
Definition cancels (t : list shutdown_action) : list nat :=
  omap (fun a => match a with Cancel id => Some id | _ => None end) t.

(** * Properties *)


(** ** The backoff wait *)

Lemma backoff_le_cap (r : Z) : backoff r <= 300.
Proof. unfold backoff. lia. Qed.


Lemma backoff_ge_2 (r : Z) : 1 <= r -> 2 <= backoff r.
Proof.
  intros Hr. unfold backoff.
  assert (2 ^ 1 <= 2 ^ r) by (apply Z.pow_le_mono_r; lia).
  change (2 ^ 1) with 2 in *. lia.
Qed.

Lemma backoff_1 : backoff 1 = 2.
Proof. reflexivity. Qed.

(** ** Streaks of failed connection attempts *)

Lemma sleeps_streak_trace uri r es :
  sleeps (streak_trace uri r es) = waits_from r (length es).
Proof.
  revert r. induction es as [|e es IH]; intros r; [reflexivity|].
  cbn. f_equal. apply IH.
Qed.





Section ListenerFacts.

Context {json : Type}.
Variable json_loads : string -> option json.

Lemma run_app (c : coroutine) (rs1 rs2 : list reply) :
  run json_loads c (rs1 ++ rs2) =
    let '(c1, t1) := run json_loads c rs1 in
    let '(c2, t2) := run json_loads c1 rs2 in
    (c2, t1 ++ t2).
Proof.
  revert c. induction rs1 as [|r rs1 IH]; intros c; cbn.
  - destruct (run json_loads c rs2). reflexivity.
  - destruct (resume json_loads c r) as [c1 t1]. rewrite IH.
    destruct (run json_loads c1 rs1) as [c2 t2].
    destruct (run json_loads c2 rs2) as [c3 t3].
    by rewrite app_assoc.
Qed.

(** One failed attempt and its sleep, the counter staying below the
    maximum. *)
Lemma failed_attempt (b : bot) (e : exn) :
  is_Exception e = true ->
  retries b + 1 < max_retries b ->
  run json_loads (Coroutine b AtConnect) [Raise e; Value ""] =
    (Coroutine (set_retries b (retries b + 1)) AtConnect,
     [Log (LogConnectionFailed (retries b + 1) e);
      Sleep (backoff (retries b + 1)); Connect (ws_uri b) 30]).
Proof.
  intros He Hlt. cbn. unfold outer_handler. rewrite He. cbn.
  unfold loop_head. cbn.
  destruct (Z.ltb_spec (retries b + 1) (max_retries b)); [reflexivity | lia].
Qed.

Lemma run_failure_streak (es : list exn) (b : bot) :
  Forall (fun e => is_Exception e = true) es ->
  retries b + Z.of_nat (length es) < max_retries b ->
  run json_loads (Coroutine b AtConnect) (failure_streak es) =
    (Coroutine (set_retries b (retries b + Z.of_nat (length es))) AtConnect,
     streak_trace (ws_uri b) (retries b) es).
Proof.
  revert b. induction es as [|e es IH]; intros b Hall Hlt.
  - cbn. destruct b as [u r m]. cbn. by rewrite Z.add_0_r.
  - apply Forall_cons in Hall as [He Hall].
    change (failure_streak (e :: es)) with ([Raise e; Value ""] ++ failure_streak es).
    rewrite run_app, failed_attempt by (try done; cbn [length] in Hlt; lia).
    rewrite IH; [|done|cbn in *; lia].
    cbn. do 2 f_equal. unfold set_retries. cbn. f_equal. lia.
Qed.

End ListenerFacts.




(** ** The listener step by step *)

Section ListenerSteps.

Context {json : Type}.
Variable json_loads : string -> option json.

(** The callee [self.process_data] does not exist, so the call of line 106
    raises before [json.loads] is even evaluated. *)
Lemma call_process_data_raises (data : string) :
  call_process_data json_loads data = Some (AttributeError "process_data").
Proof. reflexivity. Qed.

Lemma listen_snoc (b : bot) (rs : list reply) (r : reply) (c : coroutine)
    (t : list action) :
  listen json_loads b rs = (c, t) ->
  listen json_loads b (rs ++ [r]) =
    ((resume json_loads c r).1, t ++ (resume json_loads c r).2).
Proof.
  unfold listen. destruct (websocket_listener b) as [c0 t0].
  rewrite run_app. destruct (run json_loads c0 rs) as [c1 t1].
  intros [= <- <-]. cbn. destruct (resume json_loads c1 r) as [c2 t2]. cbn.
  by rewrite app_nil_r, app_assoc.
Qed.

Lemma listen_app (b : bot) (rs1 rs2 : list reply) (c : coroutine)
    (t : list action) :
  listen json_loads b rs1 = (c, t) ->
  listen json_loads b (rs1 ++ rs2) =
    ((run json_loads c rs2).1, t ++ (run json_loads c rs2).2).
Proof.
  unfold listen. destruct (websocket_listener b) as [c0 t0].
  rewrite run_app. destruct (run json_loads c0 rs1) as [c1 t1].
  intros [= <- <-]. destruct (run json_loads c1 rs2) as [c2 t2]. cbn.
  by rewrite app_assoc.
Qed.

Lemma loop_head_inv (b : bot) :
  ws_uri b = ws_uri init_bot -> max_retries b = 10 -> 0 <= retries b <= 10 ->
  listener_inv (loop_head b).1.
Proof.
  destruct b as [u r m]. cbn. intros Hu Hm Hr. unfold loop_head. cbn.
  destruct (Z.ltb_spec r m); unfold listener_inv; cbn;
    (split; [done | split; [done | lia]]).
Qed.

Lemma resume_inv (c : coroutine) (r : reply) :
  listener_inv c -> listener_inv (resume json_loads c r).1.
Proof.
  destruct c as [b p]. intros (Hu & Hm & Hp). cbn in Hu, Hm, Hp.
  unfold resume. cbn [self at_point].
  destruct p as [| | | | |e0]; destruct r as [d|e]; cbn [fst];
    rewrite ?call_process_data_raises;
    unfold inner_exception, outer_handler;
    repeat match goal with
      | |- context [inner_handler_catches ?e] => destruct (inner_handler_catches e)
      | |- context [is_Exception ?e] => destruct (is_Exception e)
      end;
    try (apply loop_head_inv; first [done | lia]);
    try (destruct (loop_head b) as [c1 t1] eqn:Hlh;
         change c1 with ((c1, t1).1); rewrite <- Hlh;
         apply loop_head_inv; first [done | lia]);
    unfold listener_inv; cbn; (split; [done | split; [done | lia]]).
Qed.

Lemma run_inv (c : coroutine) (rs : list reply) :
  listener_inv c -> listener_inv (run json_loads c rs).1.
Proof.
  revert c. induction rs as [|r rs IH]; intros c Hc; [exact Hc|].
  cbn. pose proof (resume_inv c r Hc) as H1.
  destruct (resume json_loads c r) as [c1 t1].
  specialize (IH c1 H1). destruct (run json_loads c1 rs) as [c2 t2]. exact IH.
Qed.

Lemma listen_init_bot (rs : list reply) :
  listen json_loads init_bot rs =
    ((run json_loads (Coroutine init_bot AtConnect) rs).1,
     Connect (ws_uri init_bot) 30
       :: (run json_loads (Coroutine init_bot AtConnect) rs).2).
Proof.
  change (listen json_loads init_bot rs)
    with (let '(c1, out1) := run json_loads (Coroutine init_bot AtConnect) rs in
          (c1, [Connect (ws_uri init_bot) 30] ++ out1)).
  by destruct (run json_loads (Coroutine init_bot AtConnect) rs).
Qed.

Lemma listen_inv (rs : list reply) :
  listener_inv (listen json_loads init_bot rs).1.
Proof.
  rewrite listen_init_bot. apply run_inv.
  unfold listener_inv; cbn; split; [done | split; [done | lia]].
Qed.

(** On an open connection the bot is the freshly constructed one: the
    counter is 0. *)
Lemma listening_bot (rs : list reply) (c : coroutine) (t : list action) :
  listen json_loads init_bot rs = (c, t) -> at_point c = AtRecv ->
  c = Coroutine init_bot AtRecv.
Proof.
  intros Hrun Hp. pose proof (listen_inv rs) as (Hu & Hm & Hr).
  rewrite Hrun in Hu, Hm, Hr. cbn in Hu, Hm, Hr. rewrite Hp in Hr.
  destruct c as [[u r m] p]. cbn in *. by subst.
Qed.

(** A step lowers the counter only when it is a successful connect. *)
Lemma resume_lowers_counter (c : coroutine) (r : reply) :
  retries (self (resume json_loads c r).1) < retries (self c) ->
  at_point c = AtConnect /\ exists d, r = Value d.
Proof.
  destruct c as [b p]. unfold resume. cbn [self at_point].
  destruct p as [| | | | |e0]; destruct r as [d|e]; cbn [fst];
    rewrite ?call_process_data_raises;
    unfold inner_exception, outer_handler, loop_head;
    repeat match goal with
      | |- context [inner_handler_catches ?e] => destruct (inner_handler_catches e)
      | |- context [is_Exception ?e] => destruct (is_Exception e)
      | |- context [?x <? ?y] => destruct (x <? y)
      end;
    cbn; try lia; eauto.
Qed.

(** A step that raises the counter ends in the sleep of line 114. *)
Lemma resume_raises_counter (c : coroutine) (r : reply) :
  0 <= retries (self c) ->
  retries (self c) < retries (self (resume json_loads c r).1) ->
  at_point (resume json_loads c r).1 = AtSleep /\
  retries (self (resume json_loads c r).1) = retries (self c) + 1 /\
  exists pre,
    (resume json_loads c r).2 =
      pre ++ [Sleep (backoff (retries (self c) + 1))] /\
    sleeps pre = [] /\ count is_connect pre = O.
Proof.
  destruct c as [b p]. unfold resume. cbn [self at_point]. intros Hnn.
  destruct p as [| | | | |e0]; destruct r as [d|e]; cbn [fst snd];
    rewrite ?call_process_data_raises;
    unfold inner_exception, outer_handler, loop_head;
    repeat match goal with
      | |- context [inner_handler_catches ?e] => destruct (inner_handler_catches e)
      | |- context [is_Exception ?e] => destruct (is_Exception e)
      | |- context [?x <? ?y] => destruct (x <? y)
      end;
    cbn; try lia; intros _; (split; [done|]); (split; [done|]).
  - by exists [Log (LogConnectionFailed (retries b + 1) e)].
  - by exists [Close; Log (LogConnectionFailed (retries b + 1)
                            (AttributeError "process_data"))].
  - by exists [Close; Log (LogConnectionFailed (retries b + 1) e)].
Qed.

End ListenerSteps.

(** ** Frames and resets *)

Lemma sleeps_app (t1 t2 : list action) : sleeps (t1 ++ t2) = sleeps t1 ++ sleeps t2.
Proof.
  unfold sleeps. induction t1 as [|a t1 IH]; [reflexivity|].
  cbn. destruct a; cbn; by rewrite ?IH.
Qed.

Lemma frames_received_app {json : Type} (json_loads : string -> option json)
    (c : coroutine) (rs1 rs2 : list reply) :
  frames_received json_loads c (rs1 ++ rs2) =
    (frames_received json_loads c rs1
     + frames_received json_loads (run json_loads c rs1).1 rs2)%nat.
Proof.
  revert c. induction rs1 as [|r rs1 IH]; intros c; [reflexivity|].
  cbn. rewrite IH. destruct (resume json_loads c r) as [c1 t1]. cbn.
  destruct (run json_loads c1 rs1). cbn. lia.
Qed.

Lemma frames_received_streak {json : Type} (json_loads : string -> option json)
    (es : list exn) (b : bot) :
  Forall (fun e => is_Exception e = true) es ->
  retries b + Z.of_nat (length es) < max_retries b ->
  frames_received json_loads (Coroutine b AtConnect) (failure_streak es) = O.
Proof.
  revert b. induction es as [|e es IH]; intros b Hall Hlt; [reflexivity|].
  apply Forall_cons in Hall as [He Hall]. cbn [length] in Hlt.
  change (failure_streak (e :: es)) with ([Raise e; Value ""] ++ failure_streak es).
  rewrite frames_received_app, failed_attempt by (try done; lia).
  cbn [fst]. rewrite IH; [|done|cbn; lia].
  cbn. unfold outer_handler. by rewrite He.
Qed.

(** C2 (amended).  The retry counter is reset to 0 exactly by a successful
    connection attempt, before any message is received: after K failures
    (K below 10) the counter is K, the connect that succeeds brings it back
    to 0 with no frame received yet, and the next failure on that
    connection sleeps 2^1 = 2.  No step other than a successful connect
    ever lowers the counter. *)
Theorem counter_reset_on_connect {json : Type} (json_loads : string -> option json)
    (es : list exn) (r : reply) :
  Forall (fun e => is_Exception e = true) es ->
  (length es < 10)%nat ->
  fails_connection r = true ->
  (listen json_loads init_bot (failure_streak es)).1
    = Coroutine (set_retries init_bot (Z.of_nat (length es))) AtConnect
  /\ (listen json_loads init_bot (failure_streak es ++ [Value ""])).1
       = Coroutine init_bot AtRecv
  /\ frames_received json_loads (websocket_listener init_bot).1
       (failure_streak es ++ [Value ""]) = O
  /\ (exists t : list action,
        listen json_loads init_bot (failure_streak es ++ [Value ""; r])
          = (Coroutine (set_retries init_bot 1) AtSleep, t ++ [Sleep 2])
        /\ sleeps t = waits_from 0 (length es))
  /\ (forall (b : bot) (d : string),
        resume json_loads (Coroutine b AtConnect) (Value d)
          = (Coroutine (set_retries b 0) AtRecv, [Log LogConnected; Recv 45]))
  /\ (forall (c : coroutine) (r' : reply),
        retries (self (resume json_loads c r').1) < retries (self c)
        <-> at_point c = AtConnect /\ (exists d, r' = Value d)
            /\ 0 < retries (self c)).
Proof.
  intros Hall Hlen Hr.
  assert (Hrun : listen json_loads init_bot (failure_streak es)
                 = (Coroutine (set_retries init_bot (Z.of_nat (length es))) AtConnect,
                    Connect (ws_uri init_bot) 30
                      :: streak_trace (ws_uri init_bot) 0 es)).
  { rewrite listen_init_bot, run_failure_streak by (try done; cbn; lia).
    reflexivity. }
  assert (Hok : listen json_loads init_bot (failure_streak es ++ [Value ""])
                = (Coroutine init_bot AtRecv,
                   (Connect (ws_uri init_bot) 30
                      :: streak_trace (ws_uri init_bot) 0 es)
                   ++ [Log LogConnected; Recv 45])).
  { by rewrite (listen_snoc _ _ _ _ _ _ Hrun). }
  split; [by rewrite Hrun|]. split; [by rewrite Hok|].
  split.
  { change (websocket_listener init_bot).1 with (Coroutine init_bot AtConnect).
    rewrite frames_received_app, frames_received_streak by (try done; cbn; lia).
    rewrite run_failure_streak by (try done; cbn; lia). reflexivity. }
  split.
  { change [Value ""; r] with ([Value ""] ++ [r]). rewrite app_assoc.
    rewrite (listen_snoc _ _ _ _ _ _ Hok).
    set (t0 := (Connect (ws_uri init_bot) 30
                  :: streak_trace (ws_uri init_bot) 0 es)
               ++ [Log LogConnected; Recv 45]).
    assert (Hs : sleeps t0 = waits_from 0 (length es)).
    { unfold t0. rewrite sleeps_app.
      change (sleeps [Log LogConnected; Recv 45]) with (@nil Z).
      rewrite app_nil_r. apply (sleeps_streak_trace (ws_uri init_bot) 0 es). }
    destruct r as [d|e]; cbn in Hr.
    - exists (t0 ++ [Close; Log (LogConnectionFailed 1 (AttributeError "process_data"))]).
      split; [by rewrite <- app_assoc|].
      by rewrite sleeps_app, Hs, app_nil_r.
    - apply andb_true_iff in Hr as [He Hin]. apply negb_true_iff in Hin.
      exists (t0 ++ [Close; Log (LogConnectionFailed 1 e)]).
      split.
      + cbn [resume self at_point fst snd]. unfold inner_exception, outer_handler.
        rewrite Hin, He. by rewrite <- app_assoc.
      + by rewrite sleeps_app, Hs, app_nil_r. }
  split; [reflexivity|].
  intros c r'. split.
  - intros Hlow. destruct (resume_lowers_counter json_loads c r' Hlow) as [Hp [d ->]].
    split; [done|]. split; [by exists d|].
    destruct c as [b p]. cbn in Hp. subst p. cbn in Hlow. exact Hlow.
  - intros (Hp & [d ->] & Hpos). destruct c as [b p]. cbn in Hp. subst p. exact Hpos.
Qed.

(** Three failures, a connect that succeeds, a transport error: the last
    wait is 2 again. *)
Lemma counter_reset_on_connect_witness :
  Forall (fun e => is_Exception e = true) [OSError; OSError; TimeoutError] /\
  (length [OSError; OSError; TimeoutError] < 10)%nat /\
  fails_connection (Raise OSError) = true /\
  exists t : list action,
    listen only_empty_array init_bot
      (failure_streak [OSError; OSError; TimeoutError] ++ [Value ""; Raise OSError])
      = (Coroutine (set_retries init_bot 1) AtSleep, t ++ [Sleep 2])
    /\ sleeps t = [2; 4; 8].
Proof.
  assert (Hall : Forall (fun e => is_Exception e = true) [OSError; OSError; TimeoutError])
    by (repeat constructor).
  assert (Hlen : (length [OSError; OSError; TimeoutError] < 10)%nat) by (cbn; lia).
  split; [exact Hall|]. split; [exact Hlen|]. split; [reflexivity|].
  destruct (counter_reset_on_connect only_empty_array
              [OSError; OSError; TimeoutError] (Raise OSError) Hall Hlen eq_refl)
    as (_ & _ & _ & (t & Hrun & Hs) & _ & _).
  exists t. split; [exact Hrun | exact Hs].
Defined.

(** C2, as worded, fails twice.  After two failed attempts the counter is
    2; the connect that succeeds puts it back to 0 although no message has
    been received on the connection.  And a tick that is received while
    connected does not leave the counter at 0: the counter is 1 after it. *)
Lemma counter_reset_without_message :
  retries (self (listen only_empty_array init_bot
                   (failure_streak [OSError; OSError])).1) = 2
  /\ retries (self (listen only_empty_array init_bot
                      (failure_streak [OSError; OSError] ++ [Value ""])).1) = 0
  /\ frames_received only_empty_array (websocket_listener init_bot).1
       (failure_streak [OSError; OSError] ++ [Value ""]) = O
  /\ delivers_frame (listen only_empty_array init_bot [Value ""]).1 (Value "[]") = true
  /\ retries (self (listen only_empty_array init_bot [Value ""; Value "[]"]).1) = 1.
Proof. repeat split. Qed.

(** ** Timeouts, closed connections and frames on an open connection *)

(** C3 (amended).  When a receive times out or the connection reports
    ConnectionClosed, the listener logs a warning, leaves the connection,
    which is closed, and connects again with no backoff: the counter stays
    at 0 and no sleep is performed.  The wait belongs to the outer handler
    alone: every step that raises the counter ends in a sleep of
    min(2^counter, 300), which lies between 2 and 300, and nothing is
    attempted before it returns. *)
Theorem idle_or_closed_reconnects_at_once {json : Type}
    (json_loads : string -> option json)
    (rs : list reply) (c : coroutine) (t : list action) (e : exn) :
  listen json_loads init_bot rs = (c, t) ->
  at_point c = AtRecv ->
  inner_handler_catches e = true ->
  listen json_loads init_bot (rs ++ [Raise e])
    = (Coroutine init_bot AtConnect,
       t ++ [Log LogTimeoutReconnecting; Close; Connect (ws_uri init_bot) 30])
  /\ retries (self c) = 0
  /\ (forall (c' : coroutine) (r' : reply),
        0 <= retries (self c') ->
        retries (self c') < retries (self (resume json_loads c' r').1) ->
        at_point (resume json_loads c' r').1 = AtSleep
        /\ exists pre w,
             (resume json_loads c' r').2 = pre ++ [Sleep w]
             /\ w = backoff (retries (self (resume json_loads c' r').1))
             /\ 2 <= w <= 300
             /\ sleeps pre = [] /\ count is_connect pre = O).
Proof.
  intros Hrun Hp He.
  pose proof (listening_bot json_loads rs c t Hrun Hp) as ->.
  split.
  { rewrite (listen_snoc _ _ _ _ _ _ Hrun).
    cbn [resume self at_point fst snd]. unfold inner_exception. by rewrite He. }
  split; [reflexivity|].
  intros c' r' Hnn Hup.
  destruct (resume_raises_counter json_loads c' r' Hnn Hup)
    as (Hat & Hret & pre & Hout & Hsl & Hcn).
  split; [exact Hat|].
  exists pre, (backoff (retries (self c') + 1)).
  split; [exact Hout|]. split; [by rewrite Hret|].
  split; [|done].
  split; [apply backoff_ge_2; lia | apply backoff_le_cap].
Qed.

(** A connection that is closed right after it was opened. *)
Lemma idle_or_closed_reconnects_at_once_witness :
  listen only_empty_array init_bot [Value ""]
    = (Coroutine init_bot AtRecv,
       [Connect (ws_uri init_bot) 30; Log LogConnected; Recv 45]) /\
  at_point (Coroutine init_bot AtRecv) = AtRecv /\
  inner_handler_catches ConnectionClosed = true /\
  listen only_empty_array init_bot ([Value ""] ++ [Raise ConnectionClosed])
    = (Coroutine init_bot AtConnect,
       [Connect (ws_uri init_bot) 30; Log LogConnected; Recv 45]
       ++ [Log LogTimeoutReconnecting; Close; Connect (ws_uri init_bot) 30]).
Proof.
  split; [reflexivity|]. split; [reflexivity|]. split; [reflexivity|].
  exact (proj1 (idle_or_closed_reconnects_at_once only_empty_array
                  [Value ""] (Coroutine init_bot AtRecv)
                  [Connect (ws_uri init_bot) 30; Log LogConnected; Recv 45]
                  ConnectionClosed eq_refl eq_refl eq_refl)).
Defined.

(** C3, as worded, fails: after an idle timeout on an open connection the
    next connection attempt follows the close with nothing in between.  The
    counter is still 0 and the whole trace holds no sleep. *)
Lemma idle_timeout_no_backoff :
  listen only_empty_array init_bot [Value ""; Raise TimeoutError]
    = (Coroutine init_bot AtConnect,
       [Connect (ws_uri init_bot) 30; Log LogConnected; Recv 45;
        Log LogTimeoutReconnecting; Close; Connect (ws_uri init_bot) 30])
  /\ retries (self (listen only_empty_array init_bot
                      [Value ""; Raise TimeoutError]).1) = 0
  /\ sleeps (listen only_empty_array init_bot [Value ""; Raise TimeoutError]).2 = [].
Proof. repeat split. Qed.




(** C6.  On every connection that receives a frame which decodes, the call
    of [self.process_data] raises AttributeError, the class defining no
    such method.  The inner handler does not take it: the connection is
    closed and the outer handler counts a failure, the counter going from
    0 to 1, and sleeps.  No frame is ever processed: the call raises for
    every frame, and the listener never goes on to the next receive after
    one. *)
Theorem process_data_missing {json : Type} (json_loads : string -> option json)
    (rs : list reply) (c : coroutine) (t : list action)
    (data : string) (v : json) :
  listen json_loads init_bot rs = (c, t) ->
  at_point c = AtRecv ->
  json_loads data = Some v ->
  has_attribute "process_data" = false
  /\ call_process_data json_loads data = Some (AttributeError "process_data")
  /\ inner_handler_catches (AttributeError "process_data") = false
  /\ is_Exception (AttributeError "process_data") = true
  /\ listen json_loads init_bot (rs ++ [Value data])
     = (Coroutine (set_retries init_bot 1) AtSleep,
        t ++ [Close; Log (LogConnectionFailed 1 (AttributeError "process_data"));
              Sleep 2])
  /\ (forall d : string, call_process_data json_loads d <> None)
  /\ (forall (c' : coroutine) (d : string),
        at_point c' = AtRecv ->
        at_point (resume json_loads c' (Value d)).1 <> AtRecv).
Proof.
  intros Hrun Hp _.
  pose proof (listening_bot json_loads rs c t Hrun Hp) as ->.
  split; [reflexivity|]. split; [reflexivity|].
  split; [reflexivity|]. split; [reflexivity|].
  split; [by rewrite (listen_snoc _ _ _ _ _ _ Hrun)|].
  split; [intros d; by rewrite call_process_data_raises|].
  intros [b p] d Hp'. cbn in Hp'. subst p. discriminate.
Qed.

(** The empty array, which decodes, on a fresh connection. *)
Lemma process_data_missing_witness :
  listen only_empty_array init_bot [Value ""]
    = (Coroutine init_bot AtRecv,
       [Connect (ws_uri init_bot) 30; Log LogConnected; Recv 45]) /\
  at_point (Coroutine init_bot AtRecv) = AtRecv /\
  only_empty_array "[]" = Some [] /\
  listen only_empty_array init_bot ([Value ""] ++ [Value "[]"])
    = (Coroutine (set_retries init_bot 1) AtSleep,
       [Connect (ws_uri init_bot) 30; Log LogConnected; Recv 45]
       ++ [Close; Log (LogConnectionFailed 1 (AttributeError "process_data"));
           Sleep 2]).
Proof.
  split; [reflexivity|]. split; [reflexivity|]. split; [reflexivity|].
  exact (proj1 (proj2 (proj2 (proj2 (proj2
           (process_data_missing only_empty_array
              [Value ""] (Coroutine init_bot AtRecv)
              [Connect (ws_uri init_bot) 30; Log LogConnected; Recv 45]
              "[]" [] eq_refl eq_refl eq_refl)))))).
Defined.

(** ** Retry exhaustion *)

Section Halting.

Context {json : Type}.
Variable json_loads : string -> option json.

Lemma count_app (p : action -> bool) (t1 t2 : list action) :
  count p (t1 ++ t2) = (count p t1 + count p t2)%nat.
Proof. unfold count. by rewrite List.filter_app, length_app. Qed.

(** Once the loops are left the coroutine does nothing more. *)
Lemma run_after_loop (c : coroutine) (rs : list reply) :
  in_loop c = false ->
  (run json_loads c rs).2 = [] /\ in_loop (run json_loads c rs).1 = false.
Proof.
  revert c. induction rs as [|r rs IH]; intros c Hc; [done|].
  cbn. destruct c as [b p].
  assert (Hstep : (resume json_loads (Coroutine b p) r).2 = []
                  /\ in_loop (resume json_loads (Coroutine b p) r).1 = false).
  { destruct p; try discriminate; destruct r; done. }
  destruct (resume json_loads (Coroutine b p) r) as [c1 t1].
  cbn in Hstep. destruct Hstep as [-> Hc1].
  specialize (IH c1 Hc1). destruct (run json_loads c1 rs) as [c2 t2].
  cbn in *. by destruct IH as [-> ->].
Qed.

(** One step calls [shutdown] at most once, and only to leave the loops. *)
Lemma resume_shutdown_count (c : coroutine) (r : reply) :
  in_loop c = true ->
  (count is_shutdown (resume json_loads c r).2 = O)
  \/ (count is_shutdown (resume json_loads c r).2 = 1%nat
      /\ in_loop (resume json_loads c r).1 = false).
Proof.
  destruct c as [b p]. intros Hc. unfold resume. cbn [self at_point].
  destruct p as [| | | | |e0]; try discriminate; destruct r as [d|e]; cbn [fst snd];
    rewrite ?call_process_data_raises;
    unfold inner_exception, outer_handler, loop_head;
    repeat match goal with
      | |- context [inner_handler_catches ?e] => destruct (inner_handler_catches e)
      | |- context [is_Exception ?e] => destruct (is_Exception e)
      | |- context [?x <? ?y] => destruct (x <? y)
      end;
    cbn; auto.
Qed.

Lemma run_shutdown_count (c : coroutine) (rs : list reply) :
  (count is_shutdown (run json_loads c rs).2 <= 1)%nat.
Proof.
  revert c. induction rs as [|r rs IH]; intros c; [cbn; lia|].
  cbn [run]. destruct (in_loop c) eqn:Hc.
  - pose proof (resume_shutdown_count c r Hc) as Hs.
    destruct (resume json_loads c r) as [c1 t1]. cbn [fst snd] in Hs.
    destruct Hs as [H0 | [H1 Hout]].
    + specialize (IH c1). destruct (run json_loads c1 rs) as [c2 t2].
      cbn [fst snd] in *. rewrite count_app. lia.
    + destruct (run_after_loop c1 rs Hout) as [Ht _].
      destruct (run json_loads c1 rs) as [c2 t2]. cbn [fst snd] in *. subst t2.
      rewrite app_nil_r. lia.
  - destruct (run_after_loop c (r :: rs) Hc) as [Ht _]. cbn [run] in Ht.
    destruct (resume json_loads c r) as [c1 t1].
    destruct (run json_loads c1 rs) as [c2 t2]. cbn [fst snd] in *.
    rewrite Ht. cbn. lia.
Qed.

(** While the coroutine is in its loops it has not called [shutdown]. *)
Lemma run_in_loop_count (c : coroutine) (rs : list reply) :
  in_loop (run json_loads c rs).1 = true ->
  count is_shutdown (run json_loads c rs).2 = O.
Proof.
  revert c. induction rs as [|r rs IH]; intros c; [done|].
  cbn [run]. destruct (in_loop c) eqn:Hc.
  - pose proof (resume_shutdown_count c r Hc) as Hs.
    destruct (resume json_loads c r) as [c1 t1]. cbn [fst snd] in Hs.
    destruct Hs as [H0 | [H1 Hout]].
    + specialize (IH c1). destruct (run json_loads c1 rs) as [c2 t2].
      cbn [fst snd] in *. intros Hin. rewrite count_app, H0, (IH Hin). done.
    + destruct (run_after_loop c1 rs Hout) as [_ Hl].
      destruct (run json_loads c1 rs) as [c2 t2]. cbn [fst snd] in *.
      intros Hin. congruence.
  - destruct (run_after_loop c (r :: rs) Hc) as [_ Hl]. cbn [run] in Hl.
    destruct (resume json_loads c r) as [c1 t1].
    destruct (run json_loads c1 rs) as [c2 t2]. cbn [fst snd] in *.
    intros Hin. congruence.
Qed.

Lemma listen_in_loop_count (rs : list reply) (c : coroutine) (t : list action) :
  listen json_loads init_bot rs = (c, t) ->
  in_loop c = true ->
  count is_shutdown t = O.
Proof.
  rewrite listen_init_bot. intros [= <- <-] Hin.
  transitivity (count is_shutdown
                  (run json_loads (Coroutine init_bot AtConnect) rs).2);
    [reflexivity | by apply run_in_loop_count].
Qed.




End Halting.

(** ** What [shutdown] does *)

Section ShutdownFacts.

Context {app : Type}.
Variable app_stop : app -> exn + app.
Variable app_shutdown : app -> exn + app.

Lemma ends_None (ts : list task) :
  ends ts = None <-> Exists (fun t => after_cancel t = None) ts.
Proof.
  induction ts as [|t ts IH]; cbn.
  - split; [discriminate | intros H; inversion H].
  - rewrite Exists_cons. destruct (after_cancel t) as [[d f]|].
    + destruct (ends ts) as [[d' fs]|].
      * split; [discriminate|]. intros [H|H]; [discriminate|].
        apply IH in H. discriminate.
      * split; [intros _; right; by apply IH | done].
    + split; [by left | done].
Qed.





(** How the await of line 124 ends. *)
Lemma gather_Pending (c : bool) (ts : list task) :
  gather c ts = Pending <-> Exists (fun t => after_cancel t = None) ts.
Proof.
  rewrite <- ends_None. unfold gather.
  destruct (ends ts) as [[d fs]|]; [|done].
  destruct (existsb stops_loop fs), c; split; done.
Qed.





(** [shutdown] starts the same way whatever follows, and goes on to
    [app.stop()] exactly when its await returns. *)
Lemma shutdown_prefix (ts : list task) (cur : nat) (a : app) :
  exists rest,
    (shutdown app_stop app_shutdown ts cur a).2 =
      (ShutdownLog LogInitiating
         :: map Cancel (map task_id (other_tasks ts cur))
         ++ [Gather (map task_id (other_tasks ts cur))]) ++ rest
    /\ ((forall el fs, gather (cancels_itself ts cur) (other_tasks ts cur)
                       <> AllDone el fs) -> rest = [])
    /\ ((exists el fs, gather (cancels_itself ts cur) (other_tasks ts cur)
                       = AllDone el fs) -> exists rest', rest = AppStop :: rest')
    /\ Forall (fun x => x = AppStop \/ x = AppShutdown
                        \/ x = ShutdownLog LogComplete) rest.
Proof.
  unfold shutdown.
  destruct (gather (cancels_itself ts cur) (other_tasks ts cur)) as [el fs| | |].
  - destruct (app_stop a) as [e|a1]; [|destruct (app_shutdown a1) as [e|a2]];
      eexists; (split; [reflexivity|]);
      (split; [intros H; by destruct (H el fs)|]);
      (split; [intros _; eauto |]);
      repeat (apply List.Forall_cons; [auto|]); apply List.Forall_nil.
  - exists []. rewrite app_nil_r.
    repeat split; [| constructor]. by intros (? & ? & ?).
  - exists []. rewrite app_nil_r.
    repeat split; [| constructor]. by intros (? & ? & ?).
  - exists []. rewrite app_nil_r.
    repeat split; [| constructor]. by intros (? & ? & ?).
Qed.










End ShutdownFacts.




(** ** Cancelling and awaiting the other tasks *)







(** ** Exit status and configuration *)

Section MainFacts.

Context {app : Type}.
Variable app_stop : app -> exn + app.
Variable app_shutdown : app -> exn + app.


Lemma main_handler_status (e : exn) (t : list program_event) :
  (main_handler e t).1
  = Some (if is_Exception e then 0 else uncaught_status e).
Proof. unfold main_handler, uncaught. by destruct e. Qed.


Lemma validate_required (env : gmap string string) :
  validate env REQUIRED_ENV =
    if truthy (env !! "TELEGRAM_TOKEN") then
      if truthy (env !! "CHAT_ID") then None
      else Some (ValueError "Missing required environment variable: CHAT_ID")
    else Some (ValueError "Missing required environment variable: TELEGRAM_TOKEN").
Proof. reflexivity. Qed.

End MainFacts.




(** C9 (amended).  The bot token, the chat identifier and the display name
    come from the environment.  When the token or the chat identifier is
    unset or empty the script stops before anything is constructed or
    started, on a ValueError that names the missing variable, with exit
    status 1.  When both are set the globals hold their values, the
    display name is the value of BOT_NAME or its default, and the rest is
    fixed in the code whatever the environment holds: the thresholds 5, 10
    and 50 for 5m, 15m and 1h, a maximum of 10 retries, a backoff of base 2
    capped at 300.  No cooldown duration is configured. *)
Theorem configuration_from_environment {app : Type}
    (app_stop app_shutdown : app -> exn + app) (w : world) :
  (forall var, var ∈ REQUIRED_ENV -> truthy (environ w !! var) = false ->
     exists missing,
       missing ∈ REQUIRED_ENV
       /\ truthy (environ w !! missing) = false
       /\ module_init (environ w)
          = inl (ValueError
                   (String.append "Missing required environment variable: " missing))
       /\ main app_stop app_shutdown w
          = (Some 1,
             [Traceback
                (ValueError
                   (String.append "Missing required environment variable: " missing))]))
  /\ (truthy (environ w !! "TELEGRAM_TOKEN") = true ->
      truthy (environ w !! "CHAT_ID") = true ->
      module_init (environ w)
        = inr {| TELEGRAM_TOKEN := environ w !! "TELEGRAM_TOKEN";
                 CHAT_ID := environ w !! "CHAT_ID";
                 BOT_NAME := default "GitHub Codespaces Bot" (environ w !! "BOT_NAME");
                 ALERT_THRESHOLDS :=
                   {[ "5m" := 5%Q; "15m" := 10%Q; "1h" := 50%Q ]} |})
  /\ (forall g b a, construct g w = inr (b, a) ->
        b = init_bot /\ retries b = 0 /\ max_retries b = 10)
  /\ (forall r, backoff r = Z.min (2 ^ r) 300).
Proof.
  split; [|split; [|split]].
  - intros var Hvar Hfalse.
    assert (Hcases : truthy (environ w !! "TELEGRAM_TOKEN") = false
                     \/ (truthy (environ w !! "TELEGRAM_TOKEN") = true
                         /\ truthy (environ w !! "CHAT_ID") = false)).
    { unfold REQUIRED_ENV in Hvar.
      apply elem_of_cons in Hvar as [->|Hvar]; [by left|].
      apply list_elem_of_singleton in Hvar as ->.
      destruct (truthy (environ w !! "TELEGRAM_TOKEN")); [by right | by left]. }
    destruct Hcases as [Ht | [Ht Hc]].
    + exists "TELEGRAM_TOKEN". split; [unfold REQUIRED_ENV; repeat constructor|].
      split; [done|].
      assert (Hinit : module_init (environ w)
                = inl (ValueError "Missing required environment variable: TELEGRAM_TOKEN")).
      { unfold module_init. by rewrite validate_required, Ht. }
      split; [exact Hinit|]. unfold main. by rewrite Hinit.
    + exists "CHAT_ID". split; [unfold REQUIRED_ENV; repeat constructor|].
      split; [done|].
      assert (Hinit : module_init (environ w)
                = inl (ValueError "Missing required environment variable: CHAT_ID")).
      { unfold module_init. by rewrite validate_required, Ht, Hc. }
      split; [exact Hinit|]. unfold main. by rewrite Hinit.
  - intros Ht Hc. unfold module_init. by rewrite validate_required, Ht, Hc.
  - intros g b a. unfold construct.
    destruct (_init_exchange w); [discriminate|].
    destruct (_init_telegram g w); [discriminate|].
    by intros [= <- _].
  - reflexivity.
Qed.

(** An environment without CHAT_ID. *)
Lemma configuration_from_environment_witness :
  "CHAT_ID" ∈ REQUIRED_ENV /\
  truthy (environ (world_clean {[ "TELEGRAM_TOKEN" := "123:abc" ]}) !! "CHAT_ID") = false /\
  exists missing,
    missing ∈ REQUIRED_ENV
    /\ truthy (environ (world_clean {[ "TELEGRAM_TOKEN" := "123:abc" ]}) !! missing) = false
    /\ module_init (environ (world_clean {[ "TELEGRAM_TOKEN" := "123:abc" ]}))
       = inl (ValueError
                (String.append "Missing required environment variable: " missing))
    /\ main Telegram.stop Telegram.shutdown (world_clean {[ "TELEGRAM_TOKEN" := "123:abc" ]})
       = (Some 1,
          [Traceback
             (ValueError
                (String.append "Missing required environment variable: " missing))]).
Proof.
  assert (Hin : "CHAT_ID" ∈ REQUIRED_ENV) by (unfold REQUIRED_ENV; repeat constructor).
  split; [exact Hin|]. split; [reflexivity|].
  exact (proj1 (configuration_from_environment Telegram.stop Telegram.shutdown
                  (world_clean {[ "TELEGRAM_TOKEN" := "123:abc" ]}))
           "CHAT_ID" Hin eq_refl).
Defined.

(** C9, as worded, fails on the optional values: an environment that sets
    a retry maximum, a backoff base and cap, a threshold and a cooldown
    yields the same thresholds, the same bot and the same waits as one that
    sets none of them; only the display name follows the environment. *)
Lemma optional_values_not_from_environment :
  (exists g g',
     module_init env_with_overrides = inr g
     /\ module_init env_required = inr g'
     /\ ALERT_THRESHOLDS g = ALERT_THRESHOLDS g'
     /\ ALERT_THRESHOLDS g !! "5m" = Some 5%Q
     /\ BOT_NAME g = "pump"
     /\ BOT_NAME g' = "GitHub Codespaces Bot"
     /\ construct g (world_clean env_with_overrides)
        = inr (init_bot, Telegram.built)
     /\ construct g' (world_clean env_required)
        = inr (init_bot, Telegram.built))
  /\ max_retries init_bot = 10
  /\ sleeps (listen only_empty_array init_bot
               (failure_streak [OSError; OSError; OSError])).2 = [2; 4; 8].
Proof.
  split; [|split; reflexivity].
  eexists _, _. repeat split.
Qed.

(** * Further properties of the listener *)

Section ListenerTraces.

Context {json : Type}.
Variable json_loads : string -> option json.

Lemma connection_discipline_app (o : bool) (t1 t2 : list action) :
  connection_discipline o (t1 ++ t2) =
    match connection_discipline o t1 with
    | Some o' => connection_discipline o' t2
    | None => None
    end.
Proof.
  revert o. induction t1 as [|a t1 IH]; intros o; [reflexivity|].
  cbn. destruct a as [m| | | | |]; try destruct m; destruct o; cbn; by rewrite ?IH.
Qed.

Lemma backoff_discipline_app (k : Z) (t1 t2 : list action) :
  backoff_discipline k (t1 ++ t2) =
    match backoff_discipline k t1 with
    | Some k' => backoff_discipline k' t2
    | None => None
    end.
Proof.
  revert k. induction t1 as [|a t1 IH]; intros k; [reflexivity|].
  cbn. destruct a as [m| | | |w|]; try destruct m as [| |n e0|]; cbn;
    rewrite ?IH; try reflexivity.
  - destruct (Z.eqb n (k + 1)); reflexivity.
  - destruct (Z.eqb w (Z.min (2 ^ (k + 1)) 300)); reflexivity.
Qed.

(** One step keeps the connection discipline. *)
Lemma resume_connection_discipline (c : coroutine) (r : reply) :
  connection_discipline (is_open c) (resume json_loads c r).2
    = Some (is_open (resume json_loads c r).1).
Proof.
  destruct c as [b p]. unfold resume, is_open. cbn [self at_point].
  destruct p as [| | | | |e0]; destruct r as [d|e]; cbn [fst snd];
    rewrite ?call_process_data_raises;
    unfold inner_exception, outer_handler, loop_head;
    repeat match goal with
      | |- context [inner_handler_catches ?e] => destruct (inner_handler_catches e)
      | |- context [is_Exception ?e] => destruct (is_Exception e)
      | |- context [?x <? ?y] => destruct (x <? y)
      end;
    reflexivity.
Qed.

(** One step keeps the backoff discipline. *)
Lemma resume_backoff_discipline (c : coroutine) (r : reply) :
  backoff_discipline (retries (self c)) (resume json_loads c r).2
    = Some (retries (self (resume json_loads c r).1)).
Proof.
  destruct c as [b p]. unfold resume. cbn [self at_point].
  destruct p as [| | | | |e0]; destruct r as [d|e]; cbn [fst snd];
    rewrite ?call_process_data_raises;
    unfold inner_exception, outer_handler, loop_head, backoff;
    repeat match goal with
      | |- context [inner_handler_catches ?e] => destruct (inner_handler_catches e)
      | |- context [is_Exception ?e] => destruct (is_Exception e)
      | |- context [?x <? ?y] => destruct (x <? y)
      end;
    cbn; rewrite ?Z.eqb_refl; reflexivity.
Qed.

Lemma run_connection_discipline (c : coroutine) (rs : list reply) :
  connection_discipline (is_open c) (run json_loads c rs).2
    = Some (is_open (run json_loads c rs).1).
Proof.
  revert c. induction rs as [|r rs IH]; intros c; [reflexivity|].
  cbn [run]. pose proof (resume_connection_discipline c r) as H1.
  destruct (resume json_loads c r) as [c1 t1]. specialize (IH c1).
  destruct (run json_loads c1 rs) as [c2 t2]. cbn [fst snd] in *.
  by rewrite connection_discipline_app, H1.
Qed.

Lemma run_backoff_discipline (c : coroutine) (rs : list reply) :
  backoff_discipline (retries (self c)) (run json_loads c rs).2
    = Some (retries (self (run json_loads c rs).1)).
Proof.
  revert c. induction rs as [|r rs IH]; intros c; [reflexivity|].
  cbn [run]. pose proof (resume_backoff_discipline c r) as H1.
  destruct (resume json_loads c r) as [c1 t1]. specialize (IH c1).
  destruct (run json_loads c1 rs) as [c2 t2]. cbn [fst snd] in *.
  by rewrite backoff_discipline_app, H1.
Qed.

(** The sleeps of one step. *)
Lemma resume_sleeps_bounded (c : coroutine) (r : reply) :
  0 <= retries (self c) ->
  Forall (fun w => 2 <= w <= 300) (sleeps (resume json_loads c r).2).
Proof.
  destruct c as [b p]. unfold resume. cbn [self at_point]. intros Hnn.
  assert (Hb : 2 <= backoff (retries b + 1) <= 300)
    by (split; [apply backoff_ge_2; lia | apply backoff_le_cap]).
  destruct p as [| | | | |e0]; destruct r as [d|e]; cbn [fst snd];
    rewrite ?call_process_data_raises;
    unfold inner_exception, outer_handler, loop_head;
    repeat match goal with
      | |- context [inner_handler_catches ?e] => destruct (inner_handler_catches e)
      | |- context [is_Exception ?e] => destruct (is_Exception e)
      | |- context [?x <? ?y] => destruct (x <? y)
      end;
    cbn; repeat constructor; lia.
Qed.

Lemma listener_inv_nonneg (c : coroutine) :
  listener_inv c -> 0 <= retries (self c) <= 10.
Proof. intros (_ & _ & H). destruct (at_point c); lia. Qed.

Lemma run_sleeps_bounded (c : coroutine) (rs : list reply) :
  listener_inv c ->
  Forall (fun w => 2 <= w <= 300) (sleeps (run json_loads c rs).2).
Proof.
  revert c. induction rs as [|r rs IH]; intros c Hc; [constructor|].
  cbn [run]. pose proof (resume_inv json_loads c r Hc) as H1.
  pose proof (resume_sleeps_bounded c r (proj1 (listener_inv_nonneg c Hc))) as H2.
  destruct (resume json_loads c r) as [c1 t1]. specialize (IH c1 H1).
  destruct (run json_loads c1 rs) as [c2 t2]. cbn [fst snd] in *.
  rewrite sleeps_app. by apply Forall_app.
Qed.

(** Outside its loops a step leaves the bot alone and does nothing. *)
Lemma resume_after_loop (c : coroutine) (r : reply) :
  in_loop c = false ->
  self (resume json_loads c r).1 = self c
  /\ (resume json_loads c r).2 = []
  /\ in_loop (resume json_loads c r).1 = false.
Proof.
  destruct c as [b p]. destruct p as [| | | | |e0]; try discriminate;
    destruct r; done.
Qed.

(** The step that calls [shutdown] ends on the two lines 116-117 and
    leaves the coroutine in that call. *)
Lemma resume_calls_shutdown (c : coroutine) (r : reply) :
  in_loop c = true ->
  count is_shutdown (resume json_loads c r).2 = 1%nat ->
  at_point (resume json_loads c r).1 = AtShutdown
  /\ exists pre, (resume json_loads c r).2 = pre ++ [Log LogMaxRetries; Shutdown].
Proof.
  destruct c as [b p]. intros Hc. unfold resume. cbn [self at_point].
  destruct p as [| | | | |e0]; try discriminate; destruct r as [d|e]; cbn [fst snd];
    rewrite ?call_process_data_raises;
    unfold inner_exception, outer_handler, loop_head;
    repeat match goal with
      | |- context [inner_handler_catches ?e] => destruct (inner_handler_catches e)
      | |- context [is_Exception ?e] => destruct (is_Exception e)
      | |- context [?x <? ?y] => destruct (x <? y)
      end;
    cbn; try discriminate; intros _; (split; [done|]);
    first [by exists [Log LogTimeoutReconnecting; Close] | by exists []].
Qed.

Lemma shutdown_in_count (t : list action) :
  Shutdown ∈ t -> (1 <= count is_shutdown t)%nat.
Proof.
  intros Hin. unfold count.
  assert (H : In Shutdown (List.filter is_shutdown t))
    by (apply List.filter_In; split; [by apply list_elem_of_In | done]).
  destruct (List.filter is_shutdown t); [destruct H | cbn; lia].
Qed.

(** Once [shutdown] is in the trace the counter is 10, the loops are
    left, and the trace ends on lines 116-117. *)
Lemma listen_after_shutdown (rs : list reply) (c : coroutine) (t : list action) :
  listen json_loads init_bot rs = (c, t) ->
  count is_shutdown t = 1%nat ->
  retries (self c) = 10 /\ in_loop c = false
  /\ exists t', t = t' ++ [Log LogMaxRetries; Shutdown].
Proof.
  revert c t. induction rs as [|r rs IH] using rev_ind; intros c t Hrun Hc.
  - injection Hrun as <- <-. discriminate.
  - destruct (listen json_loads init_bot rs) as [c0 t0] eqn:H0.
    rewrite (listen_snoc _ _ _ _ _ _ H0) in Hrun. injection Hrun as <- <-.
    rewrite count_app in Hc.
    destruct (in_loop c0) eqn:Hin.
    + pose proof (listen_in_loop_count json_loads rs c0 t0 H0 Hin) as Hz.
      rewrite Hz in Hc. cbn in Hc.
      destruct (resume_calls_shutdown c0 r Hin Hc) as (Hat & pre & Hout).
      pose proof (listen_inv json_loads (rs ++ [r])) as (_ & _ & Hinv).
      rewrite (listen_snoc _ _ _ _ _ _ H0) in Hinv. cbn [fst] in Hinv.
      rewrite Hat in Hinv.
      split; [exact Hinv|]. split; [unfold in_loop; by rewrite Hat|].
      exists (t0 ++ pre). by rewrite Hout, app_assoc.
    + destruct (resume_after_loop c0 r Hin) as (Hself & Hout & Hin').
      rewrite Hout in *. rewrite app_nil_r. cbn in Hc. rewrite Nat.add_0_r in Hc.
      destruct (IH c0 t0 eq_refl Hc) as (Hr & _ & Ht).
      rewrite Hself. done.
Qed.

End ListenerTraces.

Section ListenerCycles.

Context {json : Type}.
Variable json_loads : string -> option json.

Lemma run_idle_cycles (es : list exn) :
  Forall (fun e => inner_handler_catches e = true) es ->
  run json_loads (Coroutine init_bot AtConnect) (idle_cycles es)
    = (Coroutine init_bot AtConnect, idle_trace (ws_uri init_bot) es).
Proof.
  induction es as [|e es IH]; intros Hall; [reflexivity|].
  apply Forall_cons in Hall as [He Hall].
  change (idle_cycles (e :: es)) with ([Value ""; Raise e] ++ idle_cycles es).
  rewrite run_app.
  assert (H1 : run json_loads (Coroutine init_bot AtConnect) [Value ""; Raise e]
               = (Coroutine init_bot AtConnect,
                  [Log LogConnected; Recv 45; Log LogTimeoutReconnecting; Close;
                   Connect (ws_uri init_bot) 30])).
  { cbn [run resume self at_point]. unfold inner_exception. rewrite He. reflexivity. }
  rewrite H1, (IH Hall). reflexivity.
Qed.

Lemma idle_trace_sleeps (uri : string) (es : list exn) :
  sleeps (idle_trace uri es) = []
  /\ count is_shutdown (idle_trace uri es) = O
  /\ count is_connect (idle_trace uri es) = length es.
Proof.
  induction es as [|e es (IH1 & IH2 & IH3)]; [done|].
  change (idle_trace uri (e :: es))
    with ([Log LogConnected; Recv 45; Log LogTimeoutReconnecting; Close;
           Connect uri 30] ++ idle_trace uri es).
  rewrite sleeps_app, !count_app, IH1, IH2, IH3. done.
Qed.

Lemma run_frame_cycles (ds : list string) (b : bot) :
  b = init_bot \/ b = set_retries init_bot 1 ->
  run json_loads (Coroutine b AtConnect) (frame_cycles ds)
    = (Coroutine (if ds is [] then b else set_retries init_bot 1) AtConnect,
       frame_trace (ws_uri init_bot) ds).
Proof.
  revert b. induction ds as [|d ds IH]; intros b Hb; [reflexivity|].
  change (frame_cycles (d :: ds))
    with ([Value ""; Value d; Value ""] ++ frame_cycles ds).
  rewrite run_app.
  assert (H1 : run json_loads (Coroutine b AtConnect) [Value ""; Value d; Value ""]
               = (Coroutine (set_retries init_bot 1) AtConnect,
                  [Log LogConnected; Recv 45; Close;
                   Log (LogConnectionFailed 1 (AttributeError "process_data"));
                   Sleep 2; Connect (ws_uri init_bot) 30])).
  { by destruct Hb as [-> | ->]. }
  rewrite H1, (IH (set_retries init_bot 1)) by (by right).
  by destruct ds.
Qed.

Lemma frame_trace_sleeps (uri : string) (ds : list string) :
  sleeps (frame_trace uri ds) = replicate (length ds) 2
  /\ count is_shutdown (frame_trace uri ds) = O
  /\ count is_connect (frame_trace uri ds) = length ds.
Proof.
  induction ds as [|d ds (IH1 & IH2 & IH3)]; [done|].
  change (frame_trace uri (d :: ds))
    with ([Log LogConnected; Recv 45; Close;
           Log (LogConnectionFailed 1 (AttributeError "process_data"));
           Sleep 2; Connect uri 30] ++ frame_trace uri ds).
  rewrite sleeps_app, !count_app, IH1, IH2, IH3. done.
Qed.

End ListenerCycles.

Lemma trace_keeps_backoff_discipline_aux {json : Type}
    (json_loads : string -> option json) (rs : list reply) :
  backoff_discipline 0 (listen json_loads init_bot rs).2
    = Some (retries (self (listen json_loads init_bot rs).1)).
Proof.
  rewrite listen_init_bot. cbn [fst snd].
  exact (run_backoff_discipline json_loads (Coroutine init_bot AtConnect) rs).
Qed.

Lemma listen_shutdown_count_le {json : Type}
    (json_loads : string -> option json) (rs : list reply) :
  (count is_shutdown (listen json_loads init_bot rs).2 <= 1)%nat.
Proof.
  rewrite listen_init_bot. cbn [snd].
  transitivity (count is_shutdown
                  (run json_loads (Coroutine init_bot AtConnect) rs).2);
    [by apply Nat.eq_le_incl | apply run_shutdown_count].
Qed.

(** X1.  At every [await] of the listener of a fresh bot the maximum is 10
    and the address is the one [__init__] set, and the counter lies
    between 0 and 10: it is 0 while a connection is open, below 10 when a
    connection is attempted, at least 1 during a backoff sleep, and 10
    once the loop is left for [shutdown]. *)
Theorem listener_counter_invariant {json : Type}
    (json_loads : string -> option json) (rs : list reply) :
  max_retries (self (listen json_loads init_bot rs).1) = 10
  /\ ws_uri (self (listen json_loads init_bot rs).1) = ws_uri init_bot
  /\ 0 <= retries (self (listen json_loads init_bot rs).1) <= 10
  /\ (at_point (listen json_loads init_bot rs).1 = AtRecv ->
      retries (self (listen json_loads init_bot rs).1) = 0)
  /\ (at_point (listen json_loads init_bot rs).1 = AtConnect ->
      retries (self (listen json_loads init_bot rs).1) < 10)
  /\ (at_point (listen json_loads init_bot rs).1 = AtSleep ->
      1 <= retries (self (listen json_loads init_bot rs).1))
  /\ (at_point (listen json_loads init_bot rs).1 = AtShutdown
      \/ at_point (listen json_loads init_bot rs).1 = Returned ->
      retries (self (listen json_loads init_bot rs).1) = 10).
Proof.
  pose proof (listen_inv json_loads rs) as Hinv.
  pose proof (listener_inv_nonneg _ Hinv) as Hnn.
  destruct Hinv as (Hu & Hm & Hp).
  split; [exact Hm|]. split; [exact Hu|]. split; [exact Hnn|].
  destruct (at_point (listen json_loads init_bot rs).1);
    repeat split; try discriminate; try lia; intros [H|H]; try discriminate; lia.
Qed.

(** X2.  Whatever the event loop hands back, every sleep of the listener
    lasts at least 2 and at most 300. *)
Theorem sleeps_always_bounded {json : Type}
    (json_loads : string -> option json) (rs : list reply) :
  Forall (fun w => 2 <= w <= 300) (sleeps (listen json_loads init_bot rs).2).
Proof.
  rewrite listen_init_bot. cbn [snd].
  change (Connect (ws_uri init_bot) 30
            :: (run json_loads (Coroutine init_bot AtConnect) rs).2)
    with ([Connect (ws_uri init_bot) 30]
            ++ (run json_loads (Coroutine init_bot AtConnect) rs).2).
  rewrite sleeps_app. apply Forall_app. split; [constructor|].
  apply run_sleeps_bounded.
  unfold listener_inv; cbn; split; [done | split; [done | lia]].
Qed.

(** X3.  In every trace of the listener each failure line carries the
    number of failures since the last successful connect, the failure it
    reports included, each sleep lasts min(2^n, 300) for that number n,
    and the counter of the bot is that number when the trace ends. *)
Theorem trace_keeps_backoff_discipline {json : Type}
    (json_loads : string -> option json) (rs : list reply) :
  backoff_discipline 0 (listen json_loads init_bot rs).2
    = Some (retries (self (listen json_loads init_bot rs).1)).
Proof. apply trace_keeps_backoff_discipline_aux. Qed.

(** X4.  In every trace of the listener a connection is opened only while
    none is open, frames are awaited on an open connection only, and the
    connection is closed before the listener sleeps, connects again or
    calls [shutdown]; the connection is open at the end exactly when the
    listener waits for a frame. *)
Theorem trace_keeps_connection_discipline {json : Type}
    (json_loads : string -> option json) (rs : list reply) :
  connection_discipline false (listen json_loads init_bot rs).2
    = Some (is_open (listen json_loads init_bot rs).1).
Proof.
  rewrite listen_init_bot. cbn [fst snd].
  exact (run_connection_discipline json_loads (Coroutine init_bot AtConnect) rs).
Qed.

(** X5.  The listener calls [shutdown] only with the counter at 10, that
    is after ten failures with no successful connect in between; the call
    is the last thing in the trace, right after the line that the maximum
    is reached, and the loops are left for good. *)
Theorem shutdown_only_after_ten_failures {json : Type}
    (json_loads : string -> option json)
    (rs : list reply) (c : coroutine) (t : list action) :
  listen json_loads init_bot rs = (c, t) ->
  Shutdown ∈ t ->
  retries (self c) = 10
  /\ in_loop c = false
  /\ count is_shutdown t = 1%nat
  /\ backoff_discipline 0 t = Some 10
  /\ exists t', t = t' ++ [Log LogMaxRetries; Shutdown].
Proof.
  intros Hrun Hin.
  assert (Hc : count is_shutdown t = 1%nat).
  { pose proof (shutdown_in_count t Hin) as Hge.
    pose proof (listen_shutdown_count_le json_loads rs) as Hle.
    rewrite Hrun in Hle. cbn [snd] in Hle. lia. }
  destruct (listen_after_shutdown json_loads rs c t Hrun Hc) as (Hr & Hl & Ht).
  split; [exact Hr|]. split; [exact Hl|]. split; [exact Hc|]. split; [|exact Ht].
  pose proof (trace_keeps_backoff_discipline_aux json_loads rs) as Hd.
  rewrite Hrun in Hd. cbn [fst snd] in Hd. by rewrite Hd, Hr.
Qed.

(** Ten transport errors in a row: the trace holds the call. *)
Lemma shutdown_only_after_ten_failures_witness :
  Shutdown ∈ (listen only_empty_array init_bot
                (failure_streak (replicate 10 OSError))).2
  /\ retries (self (listen only_empty_array init_bot
                      (failure_streak (replicate 10 OSError))).1) = 10.
Proof.
  assert (Hin : Shutdown ∈ (listen only_empty_array init_bot
                              (failure_streak (replicate 10 OSError))).2)
    by (vm_compute; repeat constructor).
  split; [exact Hin|].
  exact (proj1 (shutdown_only_after_ten_failures only_empty_array
                  (failure_streak (replicate 10 OSError)) _ _
                  (surjective_pairing _) Hin)).
Defined.

Lemma run_failed {json : Type} (json_loads : string -> option json)
    (b : bot) (e : exn) (rs : list reply) :
  run json_loads (Coroutine b (Failed e)) rs = (Coroutine b (Failed e), []).
Proof. induction rs as [|r rs IH]; [reflexivity|]. cbn. by rewrite IH. Qed.

(** X6.  A cancellation, or any other exception that does not derive from
    Exception, delivered at whichever [await] of the loops, ends the
    listener on that exception: the open connection, if any, is closed,
    the counter is left as it is, and the listener neither sleeps nor
    connects again nor calls [shutdown], whatever comes after. *)
Theorem cancellation_ends_listener {json : Type}
    (json_loads : string -> option json)
    (c : coroutine) (e : exn) (rs : list reply) :
  in_loop c = true ->
  is_Exception e = false ->
  run json_loads c (Raise e :: rs)
    = (Coroutine (self c) (Failed e), if is_open c then [Close] else []).
Proof.
  intros Hc He. destruct c as [b p].
  assert (Hstep : resume json_loads (Coroutine b p) (Raise e)
                  = (Coroutine b (Failed e),
                     if is_open (Coroutine b p) then [Close] else [])).
  { destruct p; try discriminate; destruct e; try discriminate; reflexivity. }
  cbn [run]. rewrite Hstep, run_failed. by rewrite app_nil_r.
Qed.

(** The listener is cancelled while it waits for a frame. *)
Lemma cancellation_ends_listener_witness :
  in_loop (Coroutine init_bot AtRecv) = true /\
  is_Exception CancelledError = false /\
  run only_empty_array (Coroutine init_bot AtRecv)
    [Raise CancelledError; Value ""; Value ""]
    = (Coroutine init_bot (Failed CancelledError), [Close]).
Proof.
  split; [reflexivity|]. split; [reflexivity|].
  exact (cancellation_ends_listener only_empty_array
           (Coroutine init_bot AtRecv) CancelledError [Value ""; Value ""]
           eq_refl eq_refl).
Defined.

(** X7.  Connections that open and then time out or are closed never use
    up the retry budget: however many of them follow one another, the
    counter is 0 afterwards, the listener has not slept and has not called
    [shutdown], and it has connected once more than there were
    connections. *)
Theorem idle_cycles_never_back_off {json : Type}
    (json_loads : string -> option json) (es : list exn) :
  Forall (fun e => inner_handler_catches e = true) es ->
  listen json_loads init_bot (idle_cycles es)
    = (Coroutine init_bot AtConnect,
       Connect (ws_uri init_bot) 30 :: idle_trace (ws_uri init_bot) es)
  /\ sleeps (listen json_loads init_bot (idle_cycles es)).2 = []
  /\ count is_shutdown (listen json_loads init_bot (idle_cycles es)).2 = O
  /\ count is_connect (listen json_loads init_bot (idle_cycles es)).2
     = S (length es).
Proof.
  intros Hall.
  assert (Hrun : listen json_loads init_bot (idle_cycles es)
                 = (Coroutine init_bot AtConnect,
                    Connect (ws_uri init_bot) 30 :: idle_trace (ws_uri init_bot) es)).
  { by rewrite listen_init_bot, run_idle_cycles. }
  destruct (idle_trace_sleeps (ws_uri init_bot) es) as (H1 & H2 & H3).
  rewrite Hrun. cbn [snd].
  change (Connect (ws_uri init_bot) 30 :: idle_trace (ws_uri init_bot) es)
    with ([Connect (ws_uri init_bot) 30] ++ idle_trace (ws_uri init_bot) es).
  rewrite sleeps_app, !count_app, H1, H2, H3. done.
Qed.

(** A timeout, a closed connection and another timeout. *)
Lemma idle_cycles_never_back_off_witness :
  Forall (fun e => inner_handler_catches e = true)
    [TimeoutError; ConnectionClosed; TimeoutError] /\
  sleeps (listen only_empty_array init_bot
            (idle_cycles [TimeoutError; ConnectionClosed; TimeoutError])).2 = []
  /\ count is_shutdown
       (listen only_empty_array init_bot
          (idle_cycles [TimeoutError; ConnectionClosed; TimeoutError])).2 = O
  /\ count is_connect
       (listen only_empty_array init_bot
          (idle_cycles [TimeoutError; ConnectionClosed; TimeoutError])).2 = 4%nat.
Proof.
  assert (Hall : Forall (fun e => inner_handler_catches e = true)
                   [TimeoutError; ConnectionClosed; TimeoutError])
    by (repeat constructor).
  split; [exact Hall|].
  exact (proj2 (idle_cycles_never_back_off only_empty_array
                  [TimeoutError; ConnectionClosed; TimeoutError] Hall)).
Defined.

(** X8.  Connections that open and deliver a frame never use up the retry
    budget either: each frame costs the connection and a sleep of 2, the
    counter is back at 1 after each of them, and [shutdown] is not
    called, however many frames arrive this way. *)
Theorem frame_cycles_never_halt {json : Type}
    (json_loads : string -> option json) (ds : list string) :
  listen json_loads init_bot (frame_cycles ds)
    = (Coroutine (if ds is [] then init_bot else set_retries init_bot 1) AtConnect,
       Connect (ws_uri init_bot) 30 :: frame_trace (ws_uri init_bot) ds)
  /\ sleeps (listen json_loads init_bot (frame_cycles ds)).2
     = replicate (length ds) 2
  /\ count is_shutdown (listen json_loads init_bot (frame_cycles ds)).2 = O
  /\ count is_connect (listen json_loads init_bot (frame_cycles ds)).2
     = S (length ds).
Proof.
  assert (Hrun : listen json_loads init_bot (frame_cycles ds)
                 = (Coroutine (if ds is [] then init_bot else set_retries init_bot 1)
                      AtConnect,
                    Connect (ws_uri init_bot) 30 :: frame_trace (ws_uri init_bot) ds)).
  { rewrite listen_init_bot, run_frame_cycles by (by left). reflexivity. }
  destruct (frame_trace_sleeps (ws_uri init_bot) ds) as (H1 & H2 & H3).
  rewrite Hrun. cbn [snd].
  change (Connect (ws_uri init_bot) 30 :: frame_trace (ws_uri init_bot) ds)
    with ([Connect (ws_uri init_bot) 30] ++ frame_trace (ws_uri init_bot) ds).
  rewrite sleeps_app, !count_app, H1, H2, H3. done.
Qed.

(** X9.  The backoff doubles from 2 up to 256 over the first eight
    failures and is 300 from the ninth on. *)
Theorem backoff_closed_form (r : Z) :
  0 <= r ->
  backoff r = if r <=? 8 then 2 ^ r else 300.
Proof.
  intros Hr. unfold backoff. destruct (Z.leb_spec r 8) as [Hle|Hgt].
  - assert (2 ^ r <= 2 ^ 8) by (apply Z.pow_le_mono_r; lia).
    change (2 ^ 8) with 256 in *. lia.
  - assert (2 ^ 9 <= 2 ^ r) by (apply Z.pow_le_mono_r; lia).
    change (2 ^ 9) with 512 in *. lia.
Qed.

(** The ninth failure. *)
Lemma backoff_closed_form_witness :
  0 <= 9 /\ backoff 9 = 300.
Proof.
  split; [lia|]. exact (backoff_closed_form 9 ltac:(lia)).
Defined.

(** * The status monitor *)

Lemma run_monitor_values (b : bot) (ds : list string) (rs : list reply) :
  run_monitor b MonitorSleeping (map Value ds ++ rs)
    = ((run_monitor b MonitorSleeping rs).1,
       flat_map (fun _ : string =>
                   [LogStatus (retries b) (max_retries b); MonitorSleep 3600]) ds
       ++ (run_monitor b MonitorSleeping rs).2).
Proof.
  induction ds as [|d ds IH]; cbn [map app flat_map].
  - by destruct (run_monitor b MonitorSleeping rs).
  - cbn [run_monitor resume_monitor monitor_turn]. rewrite IH.
    by destruct (run_monitor b MonitorSleeping rs).
Qed.

Lemma run_monitor_failed (b : bot) (e : exn) (rs : list reply) :
  run_monitor b (MonitorFailed e) rs = (MonitorFailed e, []).
Proof. induction rs as [|r rs IH]; [reflexivity|]. cbn. by rewrite IH. Qed.

(** X10.  The monitor has no exit of its own: as long as its sleeps run to
    their end it writes one status line and sleeps 3600 again, every
    time.  It ends only on an exception raised into its sleep, such as a
    cancellation, and then writes nothing more. *)
Theorem monitor_never_ends_by_itself (b : bot) (ds : list string)
    (e : exn) (rs : list reply) :
  run_monitor b MonitorSleeping (map Value ds)
    = (MonitorSleeping,
       flat_map (fun _ : string =>
                   [LogStatus (retries b) (max_retries b); MonitorSleep 3600]) ds)
  /\ run_monitor b MonitorSleeping (map Value ds ++ Raise e :: rs)
     = (MonitorFailed e,
        flat_map (fun _ : string =>
                    [LogStatus (retries b) (max_retries b); MonitorSleep 3600]) ds).
Proof.
  split.
  - rewrite <- (app_nil_r (map Value ds)), run_monitor_values. cbn.
    by rewrite app_nil_r.
  - rewrite run_monitor_values. cbn [run_monitor resume_monitor].
    rewrite run_monitor_failed. cbn. by rewrite app_nil_r.
Qed.

Section BothCoroutines.

Context {json : Type}.
Variable json_loads : string -> option json.

Lemma statuses_app (t1 t2 : list loop_action) :
  statuses (t1 ++ t2) = statuses t1 ++ statuses t2.
Proof. unfold statuses. apply omap_app. Qed.

Lemma statuses_from_listener (t : list action) :
  statuses (map FromListener t) = [].
Proof. induction t as [|a t IH]; [reflexivity | exact IH]. Qed.

(** A status line tells the counter of the listener as it is then. *)
Lemma loop_step_statuses (s : loop_state) (u : turn) :
  listener_inv (the_listener s) ->
  listener_inv (the_listener (loop_step json_loads s u).1)
  /\ Forall (fun st => st = (retries (self (the_listener s)), 10))
       (statuses (loop_step json_loads s u).2).
Proof.
  intros Hinv. destruct u as [r|r]; cbn [loop_step].
  - pose proof (resume_inv json_loads (the_listener s) r Hinv) as H1.
    destruct (resume json_loads (the_listener s) r) as [c out]. cbn [fst snd] in *.
    split; [exact H1|]. rewrite statuses_from_listener. constructor.
  - destruct Hinv as (Hu & Hm & Hp).
    destruct (the_monitor s) as [|e0]; destruct r as [d|e]; cbn;
      (split; [by repeat split|]); repeat constructor.
    by rewrite Hm.
Qed.

Lemma loop_run_statuses (s : loop_state) (us : list turn) :
  listener_inv (the_listener s) ->
  Forall (fun st => 0 <= st.1 <= 10 /\ st.2 = 10)
    (statuses (loop_run json_loads s us).2).
Proof.
  revert s. induction us as [|u us IH]; intros s Hinv; [constructor|].
  cbn [loop_run]. destruct (loop_step_statuses s u Hinv) as [H1 H2].
  pose proof (listener_inv_nonneg _ Hinv) as Hnn.
  destruct (loop_step json_loads s u) as [s1 out1]. specialize (IH s1 H1).
  destruct (loop_run json_loads s1 us) as [s2 out2]. cbn [fst snd] in *.
  rewrite statuses_app. apply Forall_app. split; [|exact IH].
  eapply Forall_impl; [exact H2|]. cbn. by intros st ->.
Qed.

End BothCoroutines.

(** X11.  However the event loop interleaves the listener and the monitor
    of a fresh bot, every status line reports a counter between 0 and 10
    out of a maximum of 10. *)
Theorem status_lines_within_budget {json : Type}
    (json_loads : string -> option json) (us : list turn) :
  Forall (fun st => 0 <= st.1 <= 10 /\ st.2 = 10)
    (statuses (both_coroutines json_loads init_bot us).2).
Proof.
  assert (Hstart : both_coroutines json_loads init_bot us
            = ((loop_run json_loads
                  (LoopState (Coroutine init_bot AtConnect) MonitorSleeping) us).1,
               [FromListener (Connect (ws_uri init_bot) 30);
                FromMonitor (LogStatus 0 10); FromMonitor (MonitorSleep 3600)]
               ++ (loop_run json_loads
                     (LoopState (Coroutine init_bot AtConnect) MonitorSleeping) us).2)).
  { change (both_coroutines json_loads init_bot us)
      with (let '(s1, out1) :=
              loop_run json_loads
                (LoopState (Coroutine init_bot AtConnect) MonitorSleeping) us in
            (s1,
             [FromListener (Connect (ws_uri init_bot) 30);
              FromMonitor (LogStatus 0 10); FromMonitor (MonitorSleep 3600)]
             ++ out1)).
    by destruct (loop_run json_loads
                   (LoopState (Coroutine init_bot AtConnect) MonitorSleeping) us). }
  rewrite Hstart. cbn [snd]. rewrite statuses_app. apply Forall_app. split.
  - repeat constructor; cbn; lia.
  - apply loop_run_statuses.
    unfold listener_inv; cbn; split; [done | split; [done | lia]].
Qed.

(** * Further properties of [gather] and [shutdown] *)

Section ShutdownTrace.

Context {app : Type}.
Variable app_stop : app -> exn + app.
Variable app_shutdown : app -> exn + app.

Lemma cancels_app (t1 t2 : list shutdown_action) :
  cancels (t1 ++ t2) = cancels t1 ++ cancels t2.
Proof. unfold cancels. apply omap_app. Qed.

Lemma cancels_map_Cancel (ids : list nat) : cancels (map Cancel ids) = ids.
Proof.
  induction ids as [|i ids IH]; [reflexivity|].
  change (cancels (map Cancel (i :: ids))) with (i :: cancels (map Cancel ids)).
  by rewrite IH.
Qed.

Lemma cancels_rest (rest : list shutdown_action) :
  Forall (fun x => x = AppStop \/ x = AppShutdown
                   \/ x = ShutdownLog LogComplete) rest ->
  cancels rest = [].
Proof.
  induction rest as [|x rest IH]; intros Hall; [reflexivity|].
  apply Forall_cons in Hall as [[->|[->| ->]] Hall];
    change (cancels (_ :: rest)) with (cancels rest); by apply IH.
Qed.

Lemma NoDup_map_filter {A B : Type} (g : A -> B) (f : A -> bool) (l : list A) :
  NoDup (map g l) -> NoDup (map g (List.filter f l)).
Proof.
  induction l as [|x l IH]; cbn; [done|].
  intros Hnd. apply NoDup_cons in Hnd as [Hx Hnd].
  destruct (f x); [|by apply IH]. cbn. apply NoDup_cons. split; [|by apply IH].
  intros Hin. apply Hx.
  apply list_elem_of_fmap in Hin as (y & -> & Hy).
  apply list_elem_of_fmap. exists y. split; [done|].
  apply list_elem_of_In. apply list_elem_of_In, List.filter_In in Hy. tauto.
Qed.


End ShutdownTrace.

(** X12.  [shutdown] cancels the other pending tasks in the order of
    [all_tasks], each once when the tasks are distinct, and never the
    task it runs in; all the cancellations are issued before the one
    await on the cancelled tasks, and none after it. *)
Theorem shutdown_cancels_each_once {app : Type}
    (app_stop app_shutdown : app -> exn + app)
    (ts : list task) (cur : nat) (a : app) :
  cancels (shutdown app_stop app_shutdown ts cur a).2
    = map task_id (other_tasks ts cur)
  /\ (cur ∉ cancels (shutdown app_stop app_shutdown ts cur a).2)
  /\ (NoDup (map task_id ts) ->
      NoDup (cancels (shutdown app_stop app_shutdown ts cur a).2))
  /\ exists rest,
       (shutdown app_stop app_shutdown ts cur a).2
         = ShutdownLog LogInitiating
             :: map Cancel (map task_id (other_tasks ts cur))
             ++ Gather (map task_id (other_tasks ts cur)) :: rest
       /\ cancels rest = [].
Proof.
  destruct (shutdown_prefix app_stop app_shutdown ts cur a)
    as (rest & Htrace & _ & _ & Hrest).
  assert (Hc : cancels (shutdown app_stop app_shutdown ts cur a).2
               = map task_id (other_tasks ts cur)).
  { rewrite Htrace, cancels_app, (cancels_rest rest Hrest), app_nil_r.
    change (cancels (ShutdownLog LogInitiating
                       :: map Cancel (map task_id (other_tasks ts cur))
                       ++ [Gather (map task_id (other_tasks ts cur))]))
      with (cancels (map Cancel (map task_id (other_tasks ts cur))
                     ++ [Gather (map task_id (other_tasks ts cur))])).
    by rewrite cancels_app, cancels_map_Cancel, app_nil_r. }
  split; [exact Hc|]. rewrite Hc.
  split.
  { intros Hin. apply list_elem_of_fmap in Hin as (t & Hid & Ht).
    unfold other_tasks in Ht. apply list_elem_of_In, List.filter_In in Ht as [_ Hne].
    apply negb_true_iff, Nat.eqb_neq in Hne. congruence. }
  split; [apply NoDup_map_filter|].
  exists rest. split; [|by apply cancels_rest].
  rewrite Htrace. cbn. by rewrite <- app_assoc.
Qed.


(** * Further properties of the start-up *)

(** X14.  The validation loop of lines 34-36 passes exactly when every
    required variable is set to a non-empty text; otherwise it raises a
    ValueError naming the first variable, in the order of the list, that
    is unset or empty, the ones before it being set. *)
Theorem validate_reports_first_missing (env : gmap string string)
    (vars : list string) :
  (validate env vars = None
   <-> Forall (fun var => truthy (env !! var) = true) vars)
  /\ (forall e, validate env vars = Some e ->
        exists pre var post,
          vars = pre ++ var :: post
          /\ Forall (fun v => truthy (env !! v) = true) pre
          /\ truthy (env !! var) = false
          /\ e = ValueError
                   (String.append "Missing required environment variable: " var)).
Proof.
  induction vars as [|var vars [IH1 IH2]]; cbn [validate].
  - split; [split; [constructor | done] | discriminate].
  - destruct (truthy (env !! var)) eqn:Hv.
    + split.
      * rewrite IH1. split; [by constructor|].
        intros H. by apply Forall_cons in H as [_ H].
      * intros e He. destruct (IH2 e He) as (pre & v & post & -> & Hpre & Hf & ->).
        exists (var :: pre), v, post. repeat split; [by constructor | done].
    + split.
      * split; [discriminate|]. intros H. apply Forall_cons in H as [H _]. congruence.
      * intros e [= <-]. exists [], var, vars. repeat split; [constructor | done].
Qed.

Section StartupFacts.

Context {app : Type}.
Variable app_stop : app -> exn + app.
Variable app_shutdown : app -> exn + app.

(** The globals of a module that initialised hold non-empty credentials. *)
Lemma module_init_credentials (env : gmap string string) (g : globals) :
  module_init env = inr g ->
  truthy (TELEGRAM_TOKEN g) = true /\ truthy (CHAT_ID g) = true.
Proof.
  unfold module_init. rewrite validate_required.
  destruct (truthy (env !! "TELEGRAM_TOKEN")) eqn:Ht; [|discriminate].
  destruct (truthy (env !! "CHAT_ID")) eqn:Hc; [|discriminate].
  by intros [= <-].
Qed.

(** The trace of [shutdown] is never empty. *)
Lemma shutdown_trace_head (ts : list task) (cur : nat) (a : app) :
  exists rest,
    (shutdown app_stop app_shutdown ts cur a).2 = ShutdownLog LogInitiating :: rest.
Proof.
  destruct (shutdown_prefix app_stop app_shutdown ts cur a) as (rest & -> & _).
  eexists. reflexivity.
Qed.

End StartupFacts.

(** X15.  Once the module has initialised, the credential check of
    [_init_telegram] never fires: constructing the bot fails only with
    what the exchange client or the Telegram builder raises, the exchange
    client being built first, and otherwise yields the bot of [__init__]
    with the application the builder made. *)
Theorem construct_after_validation {app : Type} (w : @world app) (g : globals) :
  module_init (environ w) = inr g ->
  _init_telegram g w
    = match builder_raises w with
      | Some e => inl e
      | None => inr (built_app w)
      end
  /\ construct g w
     = match exchange_raises w with
       | Some e => inl e
       | None =>
           match builder_raises w with
           | Some e => inl e
           | None => inr (init_bot, built_app w)
           end
       end.
Proof.
  intros Hinit. destruct (module_init_credentials _ _ Hinit) as [Ht Hc].
  assert (Htel : _init_telegram g w
                 = match builder_raises w with
                   | Some e => inl e
                   | None => inr (built_app w)
                   end).
  { unfold _init_telegram. by rewrite Ht, Hc. }
  split; [exact Htel|].
  unfold construct, _init_exchange. rewrite Htel.
  destruct (exchange_raises w); [done|]. by destruct (builder_raises w).
Qed.

(** Both credentials set and nothing raising: the bot is constructed. *)
Lemma construct_after_validation_witness :
  module_init (environ (world_clean env_required))
    = inr {| TELEGRAM_TOKEN := Some "123:abc"; CHAT_ID := Some "42";
             BOT_NAME := "GitHub Codespaces Bot";
             ALERT_THRESHOLDS := {[ "5m" := 5%Q; "15m" := 10%Q; "1h" := 50%Q ]} |} /\
  construct {| TELEGRAM_TOKEN := Some "123:abc"; CHAT_ID := Some "42";
               BOT_NAME := "GitHub Codespaces Bot";
               ALERT_THRESHOLDS := {[ "5m" := 5%Q; "15m" := 10%Q; "1h" := 50%Q ]} |}
    (world_clean env_required)
    = inr (init_bot, Telegram.built).
Proof.
  split; [reflexivity|].
  exact (proj2 (construct_after_validation (world_clean env_required) _ eq_refl)).
Defined.

(** X16.  [start] runs [shutdown] exactly when the gather of line 79
    raises an Exception.  The gather has no way to return: while it does
    not raise, [start] does not end and nothing is cancelled or stopped.
    What [start] raises is either the exception of the gather, when it
    does not derive from Exception, or an exception that [shutdown]
    propagates; an Exception raised by the gathered coroutines themselves
    never leaves [start].  [start] returns only from a [shutdown] that ran
    to its end. *)
Theorem start_shuts_down_on_failure {app : Type}
    (app_stop app_shutdown : app -> exn + app) (w : world) :
  ((exists a, InShutdown a ∈ (start app_stop app_shutdown w).2)
   <-> exists e, gathered w = Some e /\ is_Exception e = true)
  /\ (gathered w = None ->
      start app_stop app_shutdown w = (NeverEnds, [LogStarting]))
  /\ (forall e, (start app_stop app_shutdown w).1 = Raises e ->
        (gathered w = Some e /\ is_Exception e = false)
        \/ (exists e0 a',
              gathered w = Some e0 /\ is_Exception e0 = true
              /\ (shutdown app_stop app_shutdown
                    (all_tasks w) (current_task w) (app_then w)).1
                 = Propagates e a'))
  /\ ((start app_stop app_shutdown w).1 = Returns ->
      exists e0 a' el,
        gathered w = Some e0 /\ is_Exception e0 = true
        /\ (shutdown app_stop app_shutdown
              (all_tasks w) (current_task w) (app_then w)).1
           = Complete a' el).
Proof.
  unfold start. destruct (gathered w) as [e0|] eqn:Hg.
  - destruct (is_Exception e0) eqn:He0.
    + destruct (shutdown_trace_head app_stop app_shutdown
                  (all_tasks w) (current_task w) (app_then w)) as [rest Hrest].
      destruct (shutdown app_stop app_shutdown
                  (all_tasks w) (current_task w) (app_then w)) as [r t].
      cbn [fst snd] in *. subst t.
      split; [|split; [done|split]].
      * split; [intros _; by exists e0|]. intros _.
        exists (ShutdownLog LogInitiating). cbn. repeat constructor.
      * intros e Hr. right. exists e0.
        destruct r as [a' el| |e' a'|e' a']; try discriminate.
        injection Hr as ->. by exists a'.
      * intros Hr. exists e0.
        destruct r as [a' el| |e' a'|e' a']; try discriminate.
        by exists a', el.
    + cbn [fst snd]. split; [|split; [done|split]].
      * split.
        -- intros [a H]. repeat (apply elem_of_cons in H as [H|H]; [discriminate|]).
           by apply elem_of_nil in H.
        -- intros (e & [= <-] & He). congruence.
      * intros e [= <-]. by left.
      * discriminate.
  - cbn [fst snd]. split; [|split; [done|split]].
    + split.
      * intros [a H]. repeat (apply elem_of_cons in H as [H|H]; [discriminate|]).
        by apply elem_of_nil in H.
      * by intros (e & H & _).
    + discriminate.
    + discriminate.
Qed.

(** X17.  The bot is started, that is the starting line is logged, exactly
    when the module initialised and the bot was constructed; a run that
    stops before that logs nothing but the error it stops on, and the
    starting line, when there is one, is the first thing logged. *)
Theorem main_starts_after_construction {app : Type}
    (app_stop app_shutdown : app -> exn + app) (w : world) :
  (LogStarting ∈ (main app_stop app_shutdown w).2
   <-> exists g ba, module_init (environ w) = inr g /\ construct g w = inr ba)
  /\ (forall e, module_init (environ w) = inl e ->
        (main app_stop app_shutdown w).2 = [Traceback e])
  /\ (forall g e, module_init (environ w) = inr g -> construct g w = inl e ->
        (main app_stop app_shutdown w).2
          = [if is_Exception e then LogFatalInitialization e else Traceback e])
  /\ (forall g ba, module_init (environ w) = inr g -> construct g w = inr ba ->
        exists rest, (main app_stop app_shutdown w).2 = LogStarting :: rest).
Proof.
  unfold main.
  destruct (module_init (environ w)) as [e0|g0] eqn:Hinit.
  { split; [|split; [by intros e [= <-] | split; by intros]].
    cbn. split; [|by intros (g & ba & H & _)].
    intros H. repeat (apply elem_of_cons in H as [H|H]; [discriminate|]).
    by apply elem_of_nil in H. }
  destruct (construct g0 w) as [e1|ba1] eqn:Hcons.
  { split; [|split; [by intros | split]].
    - split.
      + unfold main_handler, uncaught. destruct (is_Exception e1); cbn;
          intros H; repeat (apply elem_of_cons in H as [H|H]; [discriminate|]);
          by apply elem_of_nil in H.
      + intros (g & ba & [= <-] & H). congruence.
    - intros g e [= <-] H. rewrite Hcons in H. injection H as <-.
      unfold main_handler, uncaught. by destruct (is_Exception e1).
    - intros g ba [= <-] H. congruence. }
  assert (Hhead : exists rest, (start app_stop app_shutdown w).2 = LogStarting :: rest).
  { unfold start. destruct (gathered w) as [e|]; [|by eexists].
    destruct (is_Exception e); [|by eexists].
    destruct (shutdown app_stop app_shutdown
                (all_tasks w) (current_task w) (app_then w)). by eexists. }
  destruct Hhead as [rest Hrest].
  destruct (start app_stop app_shutdown w) as [[|e2| |e2] t2] eqn:Hstart;
    cbn [snd] in Hrest; subst t2;
    (split; [|split; [by intros | split; [intros g e [= <-] H; congruence|]]]).
  - split; [intros _; by exists g0, ba1 | intros _; cbn; repeat constructor].
  - intros; by eexists.
  - split; [intros _; by exists g0, ba1|]. intros _.
    unfold main_handler, uncaught. destruct (is_Exception e2); cbn; repeat constructor.
  - intros. unfold main_handler, uncaught. destruct (is_Exception e2); by eexists.
  - split; [intros _; by exists g0, ba1 | intros _; cbn; repeat constructor].
  - intros; by eexists.
  - split; [intros _; by exists g0, ba1|]. intros _.
    unfold main_handler, uncaught. destruct (is_Exception e2); cbn; repeat constructor.
  - intros. unfold main_handler, uncaught. destruct (is_Exception e2); by eexists.
Qed.

(** * The decoder does not bear on the listener *)

Lemma resume_any_decoder {json1 json2 : Type}
    (loads1 : string -> option json1) (loads2 : string -> option json2)
    (c : coroutine) (r : reply) :
  resume loads1 c r = resume loads2 c r.
Proof.
  destruct c as [b p]. destruct p; destruct r; reflexivity.
Qed.

(** X18.  The listener never decodes a frame: whatever [json.loads] would
    make of the frames, and whatever the frames hold, the listener ends
    in the same state with the same trace. *)
Theorem listener_ignores_frames {json1 json2 : Type}
    (loads1 : string -> option json1) (loads2 : string -> option json2)
    (b : bot) (rs1 rs2 : list reply) :
  Forall2 (fun r1 r2 => match r1, r2 with
                        | Value _, Value _ => True
                        | Raise e1, Raise e2 => e1 = e2
                        | _, _ => False
                        end) rs1 rs2 ->
  listen loads1 b rs1 = listen loads2 b rs2.
Proof.
  intros Hrs. unfold listen. destruct (websocket_listener b) as [c0 t0].
  assert (Hrun : run loads1 c0 rs1 = run loads2 c0 rs2).
  { revert c0. induction Hrs as [|r1 r2 rs1 rs2 Hr _ IH]; intros c0; [reflexivity|].
    cbn [run].
    assert (Hstep : resume loads1 c0 r1 = resume loads2 c0 r2).
    { destruct r1 as [d1|e1], r2 as [d2|e2];
        [ destruct c0 as [b0 p]; destruct p; reflexivity
        | destruct Hr | destruct Hr
        | subst e2; apply resume_any_decoder ]. }
    rewrite Hstep. destruct (resume loads2 c0 r2) as [c1 t1]. by rewrite IH. }
  by rewrite Hrun.
Qed.

(** Two frames that differ, read by two decoders that differ. *)
Lemma listener_ignores_frames_witness :
  Forall2 (fun r1 r2 => match r1, r2 with
                        | Value _, Value _ => True
                        | Raise e1, Raise e2 => e1 = e2
                        | _, _ => False
                        end)
    [Value ""; Value "[]"] [Value ""; Value "{not json"] /\
  listen only_empty_array init_bot [Value ""; Value "[]"]
    = listen (fun s : string => Some s) init_bot [Value ""; Value "{not json"].
Proof.
  assert (H : Forall2 (fun r1 r2 => match r1, r2 with
                                    | Value _, Value _ => True
                                    | Raise e1, Raise e2 => e1 = e2
                                    | _, _ => False
                                    end)
                [Value ""; Value "[]"] [Value ""; Value "{not json"])
    by (repeat constructor).
  split; [exact H|].
  exact (listener_ignores_frames only_empty_array (fun s : string => Some s)
           init_bot _ _ H).
Defined.

(** * When the process does not exit *)

(** X20.  The process never exits in two cases only, both after the
    module initialised and the bot was constructed: the gather of line 79
    never completes, as when none of its coroutines fails, since
    [system_monitor] has no exit; or it raised an Exception and among the
    tasks that [shutdown] then cancels one never ends. *)
Theorem main_never_exits_iff {app : Type}
    (app_stop app_shutdown : app -> exn + app) (w : world) :
  (main app_stop app_shutdown w).1 = None
  <-> exists g ba,
        module_init (environ w) = inr g
        /\ construct g w = inr ba
        /\ (gathered w = None
            \/ exists e,
                 gathered w = Some e
                 /\ is_Exception e = true
                 /\ Exists (fun t => after_cancel t = None)
                      (other_tasks (all_tasks w) (current_task w))).
Proof.
  unfold main.
  destruct (module_init (environ w)) as [e0|g0] eqn:Hinit.
  { split; [discriminate | by intros (g & ba & H & _)]. }
  destruct (construct g0 w) as [e1|ba1] eqn:Hcons.
  { rewrite main_handler_status.
    split; [discriminate|]. intros (g & ba & [= <-] & H & _). congruence. }
  unfold start. destruct (gathered w) as [e2|] eqn:Hg.
  - destruct (is_Exception e2) eqn:He2.
    + unfold shutdown.
      destruct (gather (cancels_itself (all_tasks w) (current_task w))
                  (other_tasks (all_tasks w) (current_task w)))
        as [el fs| | |] eqn:Hgather.
      1-3: assert (Hno : ~ Exists (fun t => after_cancel t = None)
                          (other_tasks (all_tasks w) (current_task w)))
        by (intros Hex;
            apply (gather_Pending (cancels_itself (all_tasks w) (current_task w)))
              in Hex; congruence).
      * destruct (app_stop (app_then w)) as [e|a1];
          [|destruct (app_shutdown a1) as [e|a2]]; cbn [fst snd];
          rewrite ?main_handler_status;
          (split; [discriminate|]);
          intros (g & ba & _ & _ & [H|(e' & _ & _ & Hex)]);
          [discriminate | by destruct Hno | discriminate | by destruct Hno
          | discriminate | by destruct Hno].
      * cbn [fst snd]. rewrite main_handler_status. split; [discriminate|].
        intros (g & ba & _ & _ & [H|(e' & _ & _ & Hex)]);
          [discriminate | by destruct Hno].
      * cbn [fst snd]. rewrite main_handler_status. split; [discriminate|].
        intros (g & ba & _ & _ & [H|(e' & _ & _ & Hex)]);
          [discriminate | by destruct Hno].
      * cbn [fst snd]. split; [|done]. intros _.
        exists g0, ba1. split; [done|]. split; [done|]. right.
        exists e2. split; [done|]. split; [done|].
        by apply (gather_Pending (cancels_itself (all_tasks w) (current_task w))).
    + cbn [fst snd]. rewrite main_handler_status.
      split; [discriminate|].
      intros (g & ba & _ & _ & [H|(e & [= <-] & He & _)]); [discriminate|congruence].
  - cbn [fst snd]. split; [|done]. intros _. exists g0, ba1. by auto.
Qed.
